(** * GHG calculator: [app.py]

    A shallow embedding of the Streamlit application: the emission-factor
    table, the per-category totals, the per-item comparison series, the
    decade projection and the textual recommendations; then the figures
    handed to the plotting library and the pages of the script, with the
    session state they keep.  Each part is followed by the properties
    proved about it.

    Numbers are modelled as rationals ([Q]): the source mixes Python
    [int]s and [float]s, and the specification speaks of exact arithmetic.
    The last part models the arithmetic of the totals as Python performs
    it, on [int]s of any size and binary64 [float]s, where a product is
    rounded and an [int] too large for a [float] raises.
    Python dictionaries keep insertion order, which is observable in the
    recommendation list and in the comparison series, so they are modelled
    as association lists with distinct keys. *)

From Stdlib Require Import QArith Lia.
From Stdlib Require PrimFloat SpecFloat FloatOps.
From stdpp Require Import base list strings.

Local Open Scope string_scope.
Local Open Scope list_scope.
Local Open Scope Q_scope.

(** ** Python values used by the core *)

(** The exceptions a subscript can raise: a missing dictionary key, or a
    list index out of range.  [TypeError] is raised only by the store-level
    embedding below, when an object does not have the shape the code
    expects, and [OverflowError] only by the binary64 arithmetic of the
    last part, when an [int] is too large for a [float]. *)
Inductive exn : Type :=
  | KeyError (key : string)
  | IndexError
  | TypeError
  | OverflowError.

Inductive result (A : Type) : Type :=
  | Ok (a : A)
  | Raise (e : exn).

Arguments Ok {A} a.
Arguments Raise {A} e.

Definition bind {A B : Type} (r : result A) (k : A -> result B) : result B :=
  match r with
  | Ok a => k a
  | Raise e => Raise e
  end.

Notation "x <- r ;; k" := (bind r (fun x => k))
  (at level 100, r at next level, right associativity).

(** A [dict] with string keys, in insertion order. *)
Definition dict (V : Type) : Type := list (string * V).

Fixpoint dict_find {V : Type} (d : dict V) (key : string) : option V :=
  match d with
  | [] => None
  | (k, v) :: d' => if String.eqb k key then Some v else dict_find d' key
  end.

(** [key in d] *)
Definition contains {V : Type} (d : dict V) (key : string) : bool :=
  match dict_find d key with Some _ => true | None => false end.

(** [d[key]] *)
Definition getitem {V : Type} (d : dict V) (key : string) : result V :=
  match dict_find d key with
  | Some v => Ok v
  | None => Raise (KeyError key)
  end.

(** [d.get(key, default)] *)
Definition get {V : Type} (d : dict V) (key : string) (default : V) : V :=
  match dict_find d key with
  | Some v => v
  | None => default
  end.

Definition keys {V : Type} (d : dict V) : list string := map fst d.

(** The quantities entered by the user: category -> item -> quantity. *)
Definition quantities : Type := dict (dict Q).

(** ** The emission-factor table *)

Definition EMISSION_FACTORS : dict (dict Q) :=
  [ ("livestock",
      [ ("Beef Cow", 99.0); ("Dairy Cow", 102.0); ("Buffalo", 107.0);
        ("Chicken", 6.0); ("Pigs", 21.0); ("Sheep", 15.0); ("Goats", 15.0);
        ("Camels", 84.0); ("Horses", 56.0) ]);
    ("crops",
      [ ("Wheat", 0.69); ("Barley", 0.54); ("Maize", 0.77); ("Oats", 0.64);
        ("Rye", 0.68); ("Rice", 1.50); ("Millet", 0.67); ("Sorghum", 0.61);
        ("Pasture", 0.15); ("Peas", 0.45); ("Beans", 0.62);
        ("Soybeans", 0.62); ("Potatoes", 0.43); ("Feedbeet", 0.47);
        ("Sugarcane", 0.73); ("Peanuts", 0.80) ]);
    ("fertilizer",
      [ ("Urea", 1.87); ("Lime", 0.61); ("Gypsum", 0.10);
        ("Animal Manure", 0.20); ("Organic Compost", 0.20);
        ("Filter Cake", 0.25); ("Vinasse", 0.10) ]);
    ("fuel",
      [ ("Diesel Oil", 2.68); ("Gasoline", 2.31); ("Biodiesel", 1.83);
        ("Anhydrous Ethanol", 1.50); ("Hydrated Ethanol", 1.44);
        ("Natural Gas", 2.75) ]);
    ("electricity",
      [ ("Solar", 0.05); ("Wind", 0.03); ("Hydropower", 0.02) ]) ].

Definition get_emission_factors : dict (dict Q) := EMISSION_FACTORS.

(** The five categories, in the order of the table. *)
Definition categories : list string := keys EMISSION_FACTORS.

(** ** Totals per category *)

(** [quantity * factor] on rationals, where the product is exact; the
    product as Python rounds it is [Binary64.calculate_emissions]. *)
Definition calculate_emissions (quantity factor : Q) : Q := quantity * factor.

(** [factors[category].get(item, 0)] *)
Definition lookup_factor (factors : dict (dict Q)) (category item : string)
    : result Q :=
  table <- getitem factors category ;;
  Ok (get table item 0).

(** [sum(calculate_emissions(quantity, factors[category].get(item, 0))
         for item, quantity in items.items())]

    The generator evaluates [factors[category]] once per item, so the
    subscript is not evaluated at all for an empty item mapping.  [sum]
    starts from [0] and adds the terms from left to right. *)
Fixpoint sum_emissions (factors : dict (dict Q)) (category : string)
    (items : dict Q) (acc : Q) : result Q :=
  match items with
  | [] => Ok acc
  | (item, quantity) :: rest =>
      factor <- lookup_factor factors category item ;;
      sum_emissions factors category rest
        (acc + calculate_emissions quantity factor)
  end.

(** The dictionary comprehension over [data.items()]. *)
Fixpoint total_emissions_of (factors : dict (dict Q)) (data : quantities)
    : result (dict Q) :=
  match data with
  | [] => Ok []
  | (category, items) :: rest =>
      total <- sum_emissions factors category items 0 ;;
      emissions <- total_emissions_of factors rest ;;
      Ok ((category, total) :: emissions)
  end.

Definition calculate_total_emissions (data : quantities) : result (dict Q) :=
  let factors := get_emission_factors in
  total_emissions_of factors data.

(** ** Per-item comparison series

    [plot_comparison_chart] fills three parallel lists and hands them to
    the plotting library; the embedding returns the three lists. *)

Record series : Type := Series {
  labels : list string;
  traditional_values : list Q;
  reduced_values : list Q
}.

(** The nested function [add_emissions]; the three lists it appends to
    are threaded through as [acc]. *)
Fixpoint add_emissions (type_dict factor_dict : dict Q) (acc : series)
    : result series :=
  match type_dict with
  | [] => Ok acc
  | (item, quantity) :: rest =>
      factor <- getitem factor_dict item ;;
      let annual_emissions := calculate_emissions quantity factor in
      let reduced_emissions := annual_emissions * 0.8 in
      add_emissions rest factor_dict
        {| labels := labels acc ++ [item];
           traditional_values := traditional_values acc ++ [annual_emissions];
           reduced_values := reduced_values acc ++ [reduced_emissions] |}
  end.

(** [for category in factors: add_emissions(data[category], factors[category])] *)
Fixpoint comparison_loop (factors : dict (dict Q)) (cats : list string)
    (data : quantities) (acc : series) : result series :=
  match cats with
  | [] => Ok acc
  | category :: rest =>
      type_dict <- getitem data category ;;
      factor_dict <- getitem factors category ;;
      acc' <- add_emissions type_dict factor_dict acc ;;
      comparison_loop factors rest data acc'
  end.

Definition plot_comparison_chart (data : quantities) : result series :=
  let factors := get_emission_factors in
  comparison_loop factors (keys factors) data
    {| labels := []; traditional_values := []; reduced_values := [] |}.

(** ** Decade projection *)

Record projection : Type := Projection {
  traditional : list Q;
  reduced : list Q
}.

(** [list(range(2024, 2034))] *)
Definition years : list nat := seq 2024 10.

(** [l[-1]] *)
Definition last_item (l : list Q) : result Q :=
  match last l with
  | Some x => Ok x
  | None => Raise IndexError
  end.

(** The body of [for _ in range(1, len(years))], run [n] times. *)
Fixpoint grow (n : nat) (p : projection) : result projection :=
  match n with
  | O => Ok p
  | S n' =>
      t <- last_item (traditional p) ;;
      let traditional_emissions := traditional p ++ [t * 1.05] in
      r <- last_item (reduced p) ;;
      let reduced_emissions := reduced p ++ [r * 1.05] in
      grow n' {| traditional := traditional_emissions;
                 reduced := reduced_emissions |}
  end.

(** Lines 126-135 of [predict_future_emissions]: everything after the
    base total has been computed. *)
Definition project (base : Q) : result projection :=
  let traditional_emissions := [base] in
  let reduced_emissions := map (fun e => e * 0.8) traditional_emissions in
  grow (length (seq 1 (length years - 1)))
    {| traditional := traditional_emissions; reduced := reduced_emissions |}.

(** Lines 124-125: the five subscripts, evaluated from left to right. *)
Definition base_total (base_emissions : dict Q) : result Q :=
  livestock <- getitem base_emissions "livestock" ;;
  crops <- getitem base_emissions "crops" ;;
  fertilizer <- getitem base_emissions "fertilizer" ;;
  fuel <- getitem base_emissions "fuel" ;;
  electricity <- getitem base_emissions "electricity" ;;
  Ok (livestock + crops + fertilizer + fuel + electricity).

Definition predict_future_emissions (data : quantities) : result projection :=
  base_emissions <- calculate_total_emissions data ;;
  base <- base_total base_emissions ;;
  project base.

(** ** Recommendations *)

(** [quantity > 0] *)
Definition positive (quantity : Q) : bool := negb (Qle_bool quantity 0).

(** The inner [for item, quantity in ....items()] loop of one block. *)
Fixpoint recommend_items (line : string -> string) (items : dict Q)
    (recommendations : list string) : list string :=
  match items with
  | [] => recommendations
  | (item, quantity) :: rest =>
      recommend_items line rest
        (if positive quantity then recommendations ++ [line item]
         else recommendations)
  end.

(** One of the five [if category in data and data[category]:] blocks. *)
Definition recommend (data : quantities) (category header : string)
    (line : string -> string) (recommendations : list string) : list string :=
  match dict_find data category with
  | Some [] | None => recommendations
  | Some items => recommend_items line items (recommendations ++ [header])
  end.

Definition livestock_line (animal : string) : string :=
  "- Consider improving feed efficiency and manure management for "
  +:+ animal +:+ ". This can help reduce methane emissions.".

Definition crops_line (crop : string) : string :=
  "- Optimize fertilizer use and adopt precision agriculture techniques for "
  +:+ crop +:+ " to minimize emissions.".

Definition fertilizer_line (fertilizer : string) : string :=
  "- Use fertilizers like Organic Compost or Filter Cake to reduce emissions compared to conventional options.".

Definition fuel_line (fuel : string) : string :=
  "- Switch to cleaner fuels like Biodiesel or reduce reliance on Diesel Oil to lower emissions.".

Definition electricity_line (source : string) : string :=
  "- Increase the use of renewable energy sources such as Solar or Wind to reduce emissions from electricity consumption.".

Definition generate_recommendations (data : quantities) : list string :=
  let recommendations := [] in
  let recommendations :=
    recommend data "livestock" "### Recommendations for Livestock"
      livestock_line recommendations in
  let recommendations :=
    recommend data "crops" "### Recommendations for Crops"
      crops_line recommendations in
  let recommendations :=
    recommend data "fertilizer" "### Recommendations for Fertilizers"
      fertilizer_line recommendations in
  let recommendations :=
    recommend data "fuel" "### Recommendations for Fuel"
      fuel_line recommendations in
  let recommendations :=
    recommend data "electricity" "### Recommendations for Electricity"
      electricity_line recommendations in
  recommendations.

(** ** The same operations over a store

    Python dictionaries and lists are mutable objects reached through
    references.  To state what the operations do to their arguments and to
    the global table, this second embedding keeps an explicit store: an
    object lives at an address, allocation adds an object at a new
    address, and [list.append] and item assignment update the object at an
    address in place.  The operations thread the store, and return it also
    when they raise. *)

Module Heap.

Abbreviation loc := nat.

Inductive val : Type :=
  | VNum (q : Q)
  | VStr (s : string)
  | VRef (l : loc).

Inductive obj : Type :=
  | ODict (entries : dict val)
  | OList (elems : list val).

(** The store: the address of an object is its index; objects are never
    freed. *)
Abbreviation heap := (list obj).

Definition M (A : Type) : Type := heap -> result A * heap.

Definition ret {A : Type} (a : A) : M A := fun h => (Ok a, h).

Definition raise {A : Type} (e : exn) : M A := fun h => (Raise e, h).

Definition lift {A : Type} (r : result A) : M A := fun h => (r, h).

Definition mbind {A B : Type} (m : M A) (k : A -> M B) : M B :=
  fun h =>
    match m h with
    | (Ok a, h') => k a h'
    | (Raise e, h') => (Raise e, h')
    end.

Notation "x <~ m ;; k" := (mbind m (fun x => k))
  (at level 100, m at next level, right associativity).

(** *** Primitive operations on the store *)

(** A new object, at an address not in use. *)
Definition alloc (o : obj) : M loc := fun h => (Ok (length h), h ++ [o]).

Definition load (l : loc) : M obj :=
  fun h =>
    match h !! l with
    | Some o => (Ok o, h)
    | None => (Raise TypeError, h)
    end.

(** In-place update of the object at [l]. *)
Definition store (l : loc) (o : obj) : M unit :=
  fun h => (Ok tt, <[l := o]> h).

Definition load_dict (l : loc) : M (dict val) :=
  o <~ load l ;;
  match o with
  | ODict entries => ret entries
  | OList _ => raise TypeError
  end.

Definition load_list (l : loc) : M (list val) :=
  o <~ load l ;;
  match o with
  | OList elems => ret elems
  | ODict _ => raise TypeError
  end.

Definition as_num (v : val) : M Q :=
  match v with VNum q => ret q | _ => raise TypeError end.

Definition as_ref (v : val) : M loc :=
  match v with VRef l => ret l | _ => raise TypeError end.

(** [d[key]] *)
Definition subscript (d : loc) (key : string) : M val :=
  entries <~ load_dict d ;;
  lift (getitem entries key).

(** [l[-1]] *)
Definition last_item (l : loc) : M val :=
  elems <~ load_list l ;;
  match last elems with
  | Some v => ret v
  | None => raise IndexError
  end.

(** [l.append(v)]: the list object itself changes. *)
Definition append (l : loc) (v : val) : M unit :=
  elems <~ load_list l ;;
  store l (OList (elems ++ [v])).

Fixpoint dict_set (entries : dict val) (key : string) (v : val) : dict val :=
  match entries with
  | [] => [(key, v)]
  | (k, w) :: rest =>
      if String.eqb k key then (k, v) :: rest
      else (k, w) :: dict_set rest key v
  end.

(** [d[key] = v]: the dictionary object itself changes. *)
Definition setitem (d : loc) (key : string) (v : val) : M unit :=
  entries <~ load_dict d ;;
  store d (ODict (dict_set entries key v)).

(** A [for] loop over the elements seen when the loop starts. *)
Fixpoint for_each {X : Type} (xs : list X) (body : X -> M unit) : M unit :=
  match xs with
  | [] => ret tt
  | x :: rest => _ <~ body x ;; for_each rest body
  end.

(** A loop that carries an accumulator. *)
Fixpoint fold_m {X S : Type} (xs : list X) (s : S) (body : S -> X -> M S)
    : M S :=
  match xs with
  | [] => ret s
  | x :: rest => s' <~ body s x ;; fold_m rest s' body
  end.

(** Running [body] [n] times. *)
Fixpoint repeat_m (n : nat) (body : M unit) : M unit :=
  match n with
  | O => ret tt
  | S n' => _ <~ body ;; repeat_m n' body
  end.

(** *** The operations

    [g] is the address of the module-level [EMISSION_FACTORS]. *)

Definition get_emission_factors (g : loc) : M loc := ret g.

Definition calculate_emissions (quantity factor : val) : M val :=
  q <~ as_num quantity ;;
  f <~ as_num factor ;;
  ret (VNum (q * f)).

(** One term of the generator, added to the running sum:
    [calculate_emissions(quantity, factors[category].get(item, 0))]. *)
Definition add_term (factors : loc) (category : string) (acc : Q)
    (iq : string * val) : M Q :=
  table <~ subscript factors category ;;
  table <~ as_ref table ;;
  table_entries <~ load_dict table ;;
  e <~ calculate_emissions (snd iq) (get table_entries (fst iq) (VNum 0)) ;;
  e <~ as_num e ;;
  ret (acc + e).

(** One entry of the comprehension: [category: sum(...)], stored in the
    dictionary under construction. *)
Definition add_category (factors emissions : loc) (ci : string * val)
    : M unit :=
  items <~ as_ref (snd ci) ;;
  items_items <~ load_dict items ;;
  total <~ fold_m items_items 0 (add_term factors (fst ci)) ;;
  setitem emissions (fst ci) (VNum total).

Definition calculate_total_emissions (g data : loc) : M loc :=
  factors <~ get_emission_factors g ;;
  data_items <~ load_dict data ;;
  emissions <~ alloc (ODict []) ;;
  _ <~ for_each data_items (add_category factors emissions) ;;
  ret emissions.

(** [base_emissions[category]], a number. *)
Definition subscript_num (d : loc) (key : string) : M Q :=
  v <~ subscript d key ;; as_num v.

(** [l.append(l[-1] * 1.05)] *)
Definition append_growth (l : loc) : M unit :=
  v <~ last_item l ;;
  q <~ as_num v ;;
  append l (VNum (q * 1.05)).

Definition predict_future_emissions (g data : loc) : M loc :=
  factors <~ get_emission_factors g ;;
  base_emissions <~ calculate_total_emissions g data ;;
  years <~ alloc (OList (map (fun y => VNum (inject_Z (Z.of_nat y)))
                            (seq 2024 10))) ;;
  livestock <~ subscript_num base_emissions "livestock" ;;
  crops <~ subscript_num base_emissions "crops" ;;
  fertilizer <~ subscript_num base_emissions "fertilizer" ;;
  fuel <~ subscript_num base_emissions "fuel" ;;
  electricity <~ subscript_num base_emissions "electricity" ;;
  traditional_emissions <~
    alloc (OList [VNum (livestock + crops + fertilizer + fuel + electricity)]) ;;
  elems <~ load_list traditional_emissions ;;
  scaled <~ fold_m elems [] (fun acc e =>
              q <~ as_num e ;; ret (acc ++ [VNum (q * 0.8)])) ;;
  reduced_emissions <~ alloc (OList scaled) ;;
  ys <~ load_list years ;;
  _ <~ repeat_m (length (seq 1 (length ys - 1)))
         (_ <~ append_growth traditional_emissions ;;
          append_growth reduced_emissions) ;;
  alloc (ODict [ ("traditional", VRef traditional_emissions);
                 ("reduced", VRef reduced_emissions) ]).

(** One of the five blocks of [generate_recommendations]. *)
Definition recommend (data : loc) (category header : string)
    (line : string -> string) (recommendations : loc) : M unit :=
  data_entries <~ load_dict data ;;
  if contains data_entries category then
    items <~ subscript data category ;;
    items <~ as_ref items ;;
    items_entries <~ load_dict items ;;
    match items_entries with
    | [] => ret tt
    | _ :: _ =>
        _ <~ append recommendations (VStr header) ;;
        items <~ subscript data category ;;
        items <~ as_ref items ;;
        items_items <~ load_dict items ;;
        for_each items_items (fun iq =>
          quantity <~ as_num (snd iq) ;;
          if positive quantity
          then append recommendations (VStr (line (fst iq)))
          else ret tt)
    end
  else ret tt.

Definition generate_recommendations (data : loc) : M loc :=
  recommendations <~ alloc (OList []) ;;
  _ <~ recommend data "livestock" "### Recommendations for Livestock"
         livestock_line recommendations ;;
  _ <~ recommend data "crops" "### Recommendations for Crops"
         crops_line recommendations ;;
  _ <~ recommend data "fertilizer" "### Recommendations for Fertilizers"
         fertilizer_line recommendations ;;
  _ <~ recommend data "fuel" "### Recommendations for Fuel"
         fuel_line recommendations ;;
  _ <~ recommend data "electricity" "### Recommendations for Electricity"
         electricity_line recommendations ;;
  ret recommendations.

End Heap.

(** * Properties *)

(** ** Dictionaries and the factor table *)

Lemma getitem_Ok {V : Type} (d : dict V) (key : string) (v : V) :
  getitem d key = Ok v <-> dict_find d key = Some v.
Proof.
  unfold getitem. destruct (dict_find d key); split; congruence.
Qed.

Lemma getitem_Raise {V : Type} (d : dict V) (key : string) (e : exn) :
  getitem d key = Raise e <-> dict_find d key = None /\ e = KeyError key.
Proof.
  unfold getitem. destruct (dict_find d key); split.
  - discriminate.
  - intros [? _]. discriminate.
  - intros [= <-]. now split.
  - intros [_ ->]. reflexivity.
Qed.

Lemma dict_find_None {V : Type} (d : dict V) (key : string) :
  dict_find d key = None <-> ~ In key (keys d).
Proof.
  induction d as [|[k v] d IH]; simpl.
  - tauto.
  - destruct (String.eqb_spec k key) as [->|Hne].
    + split; [discriminate | intros H; exfalso; apply H; now left].
    + rewrite IH. split; [intros H [?|?]; tauto | tauto].
Qed.

Lemma dict_find_Some_In {V : Type} (d : dict V) (key : string) (v : V) :
  dict_find d key = Some v -> In (key, v) d.
Proof.
  induction d as [|[k w] d IH]; simpl; [discriminate|].
  destruct (String.eqb_spec k key) as [->|Hne].
  - intros [= ->]. now left.
  - intros H. right. now apply IH.
Qed.

(** Every category of the closed set has a factor table. *)
Lemma category_table (category : string) :
  In category categories ->
  exists table, dict_find EMISSION_FACTORS category = Some table.
Proof.
  intros H. simpl in H.
  repeat (destruct H as [<-|H]; [eexists; reflexivity|]).
  destruct H.
Qed.

(** No factor of the table is negative, and neither is the fallback. *)
Lemma factor_nonneg (category : string) (table : dict Q) (item : string) :
  dict_find EMISSION_FACTORS category = Some table ->
  0 <= get table item 0.
Proof.
  intros Ht. apply dict_find_Some_In in Ht.
  assert (Hall : Forall (fun ct : string * dict Q =>
            Forall (fun iq : string * Q => 0 <= snd iq) (snd ct))
            EMISSION_FACTORS).
  { repeat constructor; simpl; unfold Qle; simpl; lia. }
  rewrite List.Forall_forall in Hall. specialize (Hall _ Ht). simpl in Hall.
  unfold get. destruct (dict_find table item) as [f|] eqn:Hf.
  - apply dict_find_Some_In in Hf. rewrite List.Forall_forall in Hall.
    apply (Hall _ Hf).
  - apply Qle_refl.
Qed.

(** ** The per-category sum *)

(** The left-to-right sum computed for a category whose table is [table]. *)
Definition sum_with (table : dict Q) (items : dict Q) (acc : Q) : Q :=
  fold_left
    (fun a iq => a + calculate_emissions (snd iq) (get table (fst iq) 0))
    items acc.

Lemma sum_emissions_known factors category table items acc :
  dict_find factors category = Some table ->
  sum_emissions factors category items acc = Ok (sum_with table items acc).
Proof.
  intros Ht. revert acc.
  induction items as [|[item quantity] items IH]; intros acc; simpl.
  - reflexivity.
  - unfold lookup_factor, getitem. rewrite Ht. simpl. apply IH.
Qed.

Lemma sum_emissions_empty factors category acc :
  sum_emissions factors category [] acc = Ok acc.
Proof. reflexivity. Qed.

Lemma sum_emissions_unknown_category factors category items acc :
  dict_find factors category = None ->
  items <> [] ->
  sum_emissions factors category items acc = Raise (KeyError category).
Proof.
  intros Hc Hne. destruct items as [|[item quantity] items]; [congruence|].
  simpl. unfold lookup_factor, getitem. now rewrite Hc.
Qed.


Lemma sum_with_nonneg category table items acc :
  dict_find EMISSION_FACTORS category = Some table ->
  Forall (fun iq : string * Q => 0 <= snd iq) items ->
  0 <= acc ->
  0 <= sum_with table items acc.
Proof.
  unfold sum_with. intros Ht Hall. revert acc.
  induction Hall as [|[item quantity] items Hq _ IH]; intros acc Hacc; simpl.
  - exact Hacc.
  - apply IH. unfold calculate_emissions. simpl in Hq.
    assert (Hterm : 0 <= quantity * get table item 0).
    { apply Qmult_le_0_compat; [exact Hq|].
      now apply (factor_nonneg category). }
    apply (Qle_trans _ (0 + 0)); [discriminate|].
    now apply Qplus_le_compat.
Qed.

(** An item missing from its category's table is looked up as factor [0]
    by the total-emissions computation, which then adds [quantity * 0]. *)
Lemma lookup_factor_unknown_item category table item :
  dict_find EMISSION_FACTORS category = Some table ->
  dict_find table item = None ->
  lookup_factor EMISSION_FACTORS category item = Ok 0.
Proof.
  intros Ht Hi. unfold lookup_factor, getitem, get. rewrite Ht. simpl.
  now rewrite Hi.
Qed.

(** The comparison series subscripts the table directly: an item missing
    from it raises [KeyError], whatever was accumulated before. *)
Lemma add_emissions_unknown_item type_dict factor_dict acc :
  (exists item, In item (keys type_dict) /\ dict_find factor_dict item = None) ->
  exists key, add_emissions type_dict factor_dict acc = Raise (KeyError key).
Proof.
  revert acc.
  induction type_dict as [|[item quantity] rest IH]; intros acc [bad [Hin Hbad]].
  - destruct Hin.
  - simpl. unfold getitem.
    destruct (dict_find factor_dict item) as [f|] eqn:Hf; simpl.
    + apply IH. exists bad. split; [|exact Hbad].
      destruct Hin as [Heq|Hin]; [|exact Hin].
      simpl in Heq. subst bad. congruence.
    + now exists item.
Qed.

(** ** The dictionary of totals *)

(** The total of one category, for a category the table knows. *)
Definition category_total (category : string) (items : dict Q) : Q :=
  sum_with (get EMISSION_FACTORS category []) items 0.

Definition totals_of (data : quantities) : dict Q :=
  map (fun ci => (fst ci, category_total (fst ci) (snd ci))) data.

(** Categories carrying at least one item must be categories of the table;
    a category with an empty item mapping is never looked up. *)
Definition known_categories (data : quantities) : Prop :=
  forall category items,
    In (category, items) data -> items <> [] -> In category categories.

Lemma dict_find_totals_of data category :
  dict_find (totals_of data) category =
  match dict_find data category with
  | Some items => Some (category_total category items)
  | None => None
  end.
Proof.
  induction data as [|[k items] data IH]; simpl; [reflexivity|].
  destruct (String.eqb_spec k category) as [->|Hne]; [reflexivity|exact IH].
Qed.


Lemma calculate_total_emissions_known data :
  known_categories data ->
  calculate_total_emissions data = Ok (totals_of data).
Proof.
  unfold calculate_total_emissions, get_emission_factors.
  induction data as [|[category items] data IH]; intros Hk; simpl.
  - reflexivity.
  - rewrite IH.
    2:{ intros c its Hin. apply Hk. now right. }
    destruct items as [|iq items].
    + reflexivity.
    + destruct (category_table category) as [table Ht].
      { apply (Hk category (iq :: items)); [now left | discriminate]. }
      rewrite (sum_emissions_known _ _ table) by exact Ht.
      simpl. unfold category_total, get. now rewrite Ht.
Qed.

(** A category outside the table that carries an item makes the
    comprehension raise. *)
Lemma calculate_total_emissions_unknown data :
  ~ known_categories data ->
  exists key, calculate_total_emissions data = Raise (KeyError key).
Proof.
  unfold calculate_total_emissions, get_emission_factors.
  induction data as [|[category items] data IH]; intros Hk.
  - exfalso. apply Hk. intros c its [].
  - simpl.
    destruct (dict_find EMISSION_FACTORS category) as [table|] eqn:Ht.
    + rewrite (sum_emissions_known _ _ table) by exact Ht. simpl.
      destruct IH as [key Hkey].
      * intros Hrest. apply Hk. intros c its [[= <- <-]|Hin] Hne.
        -- apply dict_find_Some_In in Ht. unfold categories, keys.
           now apply (in_map fst) in Ht.
        -- now apply (Hrest c its).
      * exists key. now rewrite Hkey.
    + destruct items as [|iq items].
      * simpl. destruct IH as [key Hkey].
        -- intros Hrest. apply Hk. intros c its [[= <- <-]|Hin] Hne;
             [congruence | now apply (Hrest c its)].
        -- exists key. now rewrite Hkey.
      * exists category.
        rewrite sum_emissions_unknown_category; [reflexivity|exact Ht|discriminate].
Qed.

(** ** Unknown items *)

(** A well-formed input naming an item the livestock table does not have. *)
Definition unknown_item_input : quantities :=
  [ ("livestock", [("Unicorn", 1)]); ("crops", []); ("fertilizer", []);
    ("fuel", []); ("electricity", []) ].

(** C1: an item absent from its category's table is meant to be looked up
    as factor 0 by both the total-emissions computation and the per-item
    comparison series.  The totals do so (the item contributes zero and the
    call returns), but on the same input the comparison series raises
    [KeyError] for the item: it subscripts the table where the totals use
    [.get(item, 0)]. *)
Theorem unknown_item_totals_vs_comparison :
  dict_find (get EMISSION_FACTORS "livestock" []) "Unicorn" = None /\
  lookup_factor EMISSION_FACTORS "livestock" "Unicorn" = Ok 0 /\
  calculate_total_emissions unknown_item_input =
    Ok [ ("livestock", 0); ("crops", 0); ("fertilizer", 0); ("fuel", 0);
         ("electricity", 0) ] /\
  plot_comparison_chart unknown_item_input = Raise (KeyError "Unicorn").
Proof. repeat split; reflexivity. Qed.

(** ** Which categories receive a total *)





(** ** Linearity, zero and sign of a category total *)



(** ** The worked example *)

(** Wheat: 10 under crops and Urea: 5 under fertilizer, the other
    categories empty. *)
Definition wheat_urea_input : quantities :=
  [ ("livestock", []); ("crops", [("Wheat", 10)]);
    ("fertilizer", [("Urea", 5)]); ("fuel", []); ("electricity", []) ].

(** ** The decade projection *)

(** The list obtained from [l ++ [x]] by appending, [n] times, the last
    element multiplied by 1.05. *)
Fixpoint compound (n : nat) (l : list Q) (x : Q) : list Q :=
  match n with
  | O => l ++ [x]
  | S n' => compound n' (l ++ [x]) (x * 1.05)
  end.

Lemma grow_compound n tl t rl r :
  grow n {| traditional := tl ++ [t]; reduced := rl ++ [r] |}
  = Ok {| traditional := compound n tl t; reduced := compound n rl r |}.
Proof.
  revert tl t rl r. induction n as [|n IH]; intros tl t rl r; simpl.
  - reflexivity.
  - unfold last_item. rewrite !last_snoc. simpl. apply IH.
Qed.

Lemma compound_length n l x :
  length (compound n l x) = (length l + 1 + n)%nat.
Proof.
  revert l x. induction n as [|n IH]; intros l x; simpl.
  - rewrite length_app. simpl. lia.
  - rewrite IH, length_app. simpl. lia.
Qed.

Lemma compound_prefix n l x i :
  (i <= length l)%nat -> compound n l x !! i = (l ++ [x]) !! i.
Proof.
  revert l x. induction n as [|n IH]; intros l x Hi; simpl.
  - reflexivity.
  - rewrite IH by (rewrite length_app; simpl; lia).
    apply lookup_app_l. rewrite length_app. simpl. lia.
Qed.

Lemma compound_step n l x i :
  (length l < i <= length l + n)%nat ->
  exists prev,
    compound n l x !! (i - 1)%nat = Some prev /\
    compound n l x !! i = Some (prev * 1.05).
Proof.
  revert l x. induction n as [|n IH]; intros l x Hi; simpl.
  - lia.
  - destruct (decide (i = S (length l))) as [->|Hne].
    + exists x. split.
      * rewrite compound_prefix by (rewrite length_app; simpl; lia).
        replace (S (length l) - 1)%nat with (length l) by lia.
        rewrite lookup_app_l by (rewrite length_app; simpl; lia).
        now apply list_lookup_middle.
      * rewrite compound_prefix by (rewrite length_app; simpl; lia).
        apply list_lookup_middle. rewrite length_app. simpl. lia.
    + apply IH. rewrite length_app. simpl. lia.
Qed.

Lemma project_compound base :
  project base
  = Ok {| traditional := compound 9 [] base;
          reduced := compound 9 [] (base * 0.8) |}.
Proof. apply (grow_compound 9 [] base [] (base * 0.8)). Qed.

(** C3: for every base total [b] the projection returns two sequences of
    length 10 with [traditional[0] = b], [reduced[0] = b * 0.8], and each
    later entry, for [1 <= i <= 9], equal to the previous one times 1.05. *)
Theorem project_decade (b : Q) :
  exists p,
    project b = Ok p /\
    length (traditional p) = 10%nat /\
    length (reduced p) = 10%nat /\
    traditional p !! 0%nat = Some b /\
    reduced p !! 0%nat = Some (b * 0.8) /\
    forall i, (1 <= i <= 9)%nat ->
      exists t r,
        traditional p !! (i - 1)%nat = Some t /\
        traditional p !! i = Some (t * 1.05) /\
        reduced p !! (i - 1)%nat = Some r /\
        reduced p !! i = Some (r * 1.05).
Proof.
  eexists. split; [apply project_compound|]. cbn [traditional reduced].
  split; [apply compound_length|]. split; [apply compound_length|].
  split; [now rewrite compound_prefix by (simpl; lia)|].
  split; [now rewrite compound_prefix by (simpl; lia)|].
  intros i Hi.
  destruct (compound_step 9 [] b i) as [t [Ht1 Ht2]]; [simpl; lia|].
  destruct (compound_step 9 [] (b * 0.8) i) as [r [Hr1 Hr2]]; [simpl; lia|].
  exists t, r. auto.
Qed.

Lemma project_decade_witness :
  exists p,
    project 1000 = Ok p /\
    length (traditional p) = 10%nat /\
    length (reduced p) = 10%nat /\
    traditional p !! 0%nat = Some 1000 /\
    reduced p !! 0%nat = Some (1000 * 0.8) /\
    forall i, (1 <= i <= 9)%nat ->
      exists t r,
        traditional p !! (i - 1)%nat = Some t /\
        traditional p !! i = Some (t * 1.05) /\
        reduced p !! (i - 1)%nat = Some r /\
        reduced p !! i = Some (r * 1.05).
Proof. exact (project_decade 1000). Defined.

(** The example of the specification: base total 1000. *)
Example project_1000 :
  exists p,
    project 1000 = Ok p /\
    Forall2 Qeq (take 3 (traditional p)) [1000; 1050; 1102.5] /\
    Forall2 Qeq (take 3 (reduced p)) [800; 840; 882].
Proof.
  eexists. split; [reflexivity|].
  split; repeat constructor.
Qed.

(** *** The base total *)

Lemma total_emissions_of_keys factors data emissions :
  total_emissions_of factors data = Ok emissions ->
  keys emissions = keys data.
Proof.
  revert emissions.
  induction data as [|[category items] data IH]; intros emissions; simpl.
  - now intros [= <-].
  - destruct (sum_emissions factors category items 0) as [total|]; simpl;
      [|discriminate].
    destruct (total_emissions_of factors data) as [rest|]; simpl;
      [|discriminate].
    intros [= <-]. simpl. f_equal. now apply IH.
Qed.

Lemma getitem_cases {V : Type} (d : dict V) (key : string) :
  (exists v, getitem d key = Ok v /\ In key (keys d)) \/
  (getitem d key = Raise (KeyError key) /\ ~ In key (keys d)).
Proof.
  unfold getitem. destruct (dict_find d key) as [v|] eqn:Hf.
  - left. exists v. split; [reflexivity|].
    apply dict_find_Some_In in Hf. now apply (in_map fst) in Hf.
  - right. split; [reflexivity|]. now apply dict_find_None.
Qed.

(** The five subscripts either all succeed, or the first category missing
    from the dictionary is the [KeyError] raised. *)
Lemma base_total_cases (emissions : dict Q) :
  (exists livestock crops fertilizer fuel electricity,
     dict_find emissions "livestock" = Some livestock /\
     dict_find emissions "crops" = Some crops /\
     dict_find emissions "fertilizer" = Some fertilizer /\
     dict_find emissions "fuel" = Some fuel /\
     dict_find emissions "electricity" = Some electricity /\
     base_total emissions
     = Ok (livestock + crops + fertilizer + fuel + electricity)) \/
  (exists key,
     In key categories /\ ~ In key (keys emissions) /\
     base_total emissions = Raise (KeyError key)).
Proof.
  unfold base_total, getitem.
  destruct (dict_find emissions "livestock") as [l|] eqn:Hl; simpl.
  2:{ right. exists "livestock". rewrite <- dict_find_None. simpl. tauto. }
  destruct (dict_find emissions "crops") as [c|] eqn:Hc; simpl.
  2:{ right. exists "crops". rewrite <- dict_find_None. simpl. tauto. }
  destruct (dict_find emissions "fertilizer") as [f|] eqn:Hf; simpl.
  2:{ right. exists "fertilizer". rewrite <- dict_find_None. simpl. tauto. }
  destruct (dict_find emissions "fuel") as [u|] eqn:Hu; simpl.
  2:{ right. exists "fuel". rewrite <- dict_find_None. simpl. tauto. }
  destruct (dict_find emissions "electricity") as [e|] eqn:He; simpl.
  2:{ right. exists "electricity". rewrite <- dict_find_None. simpl. tauto. }
  left. exists l, c, f, u, e. tauto.
Qed.

Lemma dict_find_Some_keys {V : Type} (d : dict V) (key : string) (v : V) :
  dict_find d key = Some v -> In key (keys d).
Proof.
  intros H. apply dict_find_Some_In in H. now apply (in_map fst) in H.
Qed.

(** C6: when the total-emissions computation returns the five category
    totals, the projection is defined and its traditional value at year 0
    is their sum, livestock + crops + fertilizer + fuel + electricity. *)
Theorem projection_base_is_grand_sum (data : quantities) (emissions : dict Q)
    (livestock crops fertilizer fuel electricity : Q) :
  calculate_total_emissions data = Ok emissions ->
  dict_find emissions "livestock" = Some livestock ->
  dict_find emissions "crops" = Some crops ->
  dict_find emissions "fertilizer" = Some fertilizer ->
  dict_find emissions "fuel" = Some fuel ->
  dict_find emissions "electricity" = Some electricity ->
  exists p,
    predict_future_emissions data = Ok p /\
    traditional p !! 0%nat
    = Some (livestock + crops + fertilizer + fuel + electricity).
Proof.
  intros Hem Hl Hc Hf Hu He.
  eexists. split.
  - unfold predict_future_emissions. rewrite Hem. simpl.
    unfold base_total, getitem. rewrite Hl, Hc, Hf, Hu, He. simpl.
    apply project_compound.
  - cbn [traditional]. now rewrite compound_prefix by (simpl; lia).
Qed.

Lemma projection_base_is_grand_sum_witness :
  exists p,
    predict_future_emissions wheat_urea_input = Ok p /\
    traditional p !! 0%nat
    = Some (0 + (0 + 10 * 0.69) + (0 + 5 * 1.87) + 0 + 0).
Proof.
  apply (projection_base_is_grand_sum wheat_urea_input
           [ ("livestock", 0); ("crops", 0 + 10 * 0.69);
             ("fertilizer", 0 + 5 * 1.87); ("fuel", 0); ("electricity", 0) ]);
    reflexivity.
Defined.

(** *** When the projection is defined *)



(** Once the totals are computed, the projection either returns, and then
    all five categories are keys of the input, or it raises the
    [KeyError] of a base subscript for a category missing from the input. *)
Lemma predict_future_emissions_cases data emissions :
  calculate_total_emissions data = Ok emissions ->
  (exists p,
     predict_future_emissions data = Ok p /\
     forall category, In category categories -> In category (keys data)) \/
  (exists key,
     In key categories /\ ~ In key (keys data) /\
     base_total emissions = Raise (KeyError key) /\
     predict_future_emissions data = Raise (KeyError key)).
Proof.
  intros Hem.
  assert (Hkeys : keys emissions = keys data).
  { now apply (total_emissions_of_keys get_emission_factors). }
  unfold predict_future_emissions. rewrite Hem. simpl.
  destruct (base_total_cases emissions)
    as [(l & c & f & u & e & Hl & Hc & Hf & Hu & He & Hb)
       |(key & Hin & Hnot & Hb)].
  - left. rewrite Hb. simpl. rewrite project_compound.
    eexists. split; [reflexivity|].
    intros category Hcat. rewrite <- Hkeys. simpl in Hcat.
    destruct Hcat as [<-|[<-|[<-|[<-|[<-|[]]]]]];
      eauto using dict_find_Some_keys.
  - right. exists key. rewrite Hb. simpl. rewrite <- Hkeys. auto.
Qed.



(** ** Recommendations *)

Lemma positive_spec (quantity : Q) : positive quantity = true <-> 0 < quantity.
Proof.
  unfold positive. rewrite negb_true_iff.
  split.
  - intros H. apply Qnot_le_lt. intros Hle.
    apply Qle_bool_iff in Hle. congruence.
  - intros H. destruct (Qle_bool quantity 0) eqn:Hb; [|reflexivity].
    apply Qle_bool_iff in Hb. exfalso. now apply (Qlt_not_le 0 quantity).
Qed.

(** The names of the items entered with a positive quantity, in order. *)
Definition positive_items (items : dict Q) : list string :=
  map fst (List.filter (fun iq => positive (snd iq)) items).

(** What one block appends: nothing for an absent or empty category,
    otherwise the header and one line per positive item. *)
Definition block_lines (data : quantities) (category header : string)
    (line : string -> string) : list string :=
  match dict_find data category with
  | Some [] | None => []
  | Some items => header :: map line (positive_items items)
  end.

Lemma recommend_items_app line items recommendations :
  recommend_items line items recommendations
  = recommendations ++ map line (positive_items items).
Proof.
  revert recommendations.
  induction items as [|[item quantity] items IH]; intros recs; simpl.
  - now rewrite app_nil_r.
  - rewrite IH. unfold positive_items. simpl.
    destruct (positive quantity); simpl.
    + now rewrite <- app_assoc.
    + reflexivity.
Qed.

Lemma recommend_app data category header line recommendations :
  recommend data category header line recommendations
  = recommendations ++ block_lines data category header line.
Proof.
  unfold recommend, block_lines.
  destruct (dict_find data category) as [[|iq items]|].
  - now rewrite app_nil_r.
  - rewrite recommend_items_app. now rewrite <- app_assoc.
  - now rewrite app_nil_r.
Qed.

Lemma positive_items_nil items :
  (forall item quantity, In (item, quantity) items -> quantity <= 0) ->
  positive_items items = [].
Proof.
  unfold positive_items.
  induction items as [|[item quantity] items IH]; intros Hall; simpl.
  - reflexivity.
  - destruct (positive quantity) eqn:Hp.
    + apply positive_spec in Hp. exfalso.
      apply (Qlt_not_le 0 quantity Hp). apply (Hall item). now left.
    + apply IH. intros i q Hin. apply (Hall i). now right.
Qed.

Lemma positive_items_In items item :
  In item (positive_items items) <->
  exists quantity, In (item, quantity) items /\ 0 < quantity.
Proof.
  unfold positive_items. rewrite in_map_iff. split.
  - intros [[i q] [Heq Hin]]. simpl in Heq. subst i.
    apply filter_In in Hin. destruct Hin as [Hin Hp]. simpl in Hp.
    exists q. split; [exact Hin|]. now apply positive_spec.
  - intros [q [Hin Hq]]. exists (item, q). split; [reflexivity|].
    apply filter_In. split; [exact Hin|]. simpl. now apply positive_spec.
Qed.

(** *** Strings *)

Lemma string_length_app (s1 s2 : string) :
  String.length (s1 +:+ s2) = (String.length s1 + String.length s2)%nat.
Proof.
  induction s1 as [|a s1 IH]; [reflexivity|].
  change (String a s1 +:+ s2) with (String a (s1 +:+ s2)). simpl.
  now rewrite IH.
Qed.

(** Cancellation of a common suffix. *)
Lemma string_app_inj_r (s1 s2 suffix : string) :
  s1 +:+ suffix = s2 +:+ suffix -> s1 = s2.
Proof.
  revert s2. induction s1 as [|a s1 IH]; intros [|b s2] H.
  - reflexivity.
  - apply (f_equal String.length) in H. rewrite !string_length_app in H.
    simpl in H. lia.
  - apply (f_equal String.length) in H. rewrite !string_length_app in H.
    simpl in H. lia.
  - change (String a (s1 +:+ suffix) = String b (s2 +:+ suffix)) in H.
    injection H as -> H. f_equal. now apply IH.
Qed.

(** *** One line per item, and the headers *)

(** The number of items of a category entered with a positive quantity. *)
Definition positive_count (data : quantities) (category : string) : nat :=
  length (positive_items (get data category [])).

(** The statement that the output consists of one line per positive item,
    the same fixed string for all items of a category, and nothing else. *)
Definition one_fixed_line_per_item (data : quantities) : Prop :=
  exists fixed : string -> string,
    generate_recommendations data
    = concat (map (fun category =>
                     repeat (fixed category) (positive_count data category))
                categories).

(** C4, as stated, fails: two livestock items with positive quantities give
    three lines, a header and two lines that differ in the animal named. *)
Lemma recommendations_have_headers :
  ~ one_fixed_line_per_item [("livestock", [("Beef Cow", 2); ("Pigs", 1)])].
Proof.
  intros [fixed H]. apply (f_equal length) in H. vm_compute in H.
  discriminate H.
Qed.

(** C4, amended: the output is, for the five categories in the order
    livestock, crops, fertilizer, fuel, electricity, and for each one that
    is present with a non-empty item mapping, its header line followed by
    exactly one line per item with a positive quantity, in item order, and
    nothing else.  The line is the same fixed string for all items of
    fertilizer, of fuel and of electricity; for livestock and crops it
    names the item, so it differs from item to item. *)
Theorem generate_recommendations_lines (data : quantities) :
  generate_recommendations data
  = block_lines data "livestock" "### Recommendations for Livestock"
      livestock_line
    ++ block_lines data "crops" "### Recommendations for Crops" crops_line
    ++ block_lines data "fertilizer" "### Recommendations for Fertilizers"
         fertilizer_line
    ++ block_lines data "fuel" "### Recommendations for Fuel" fuel_line
    ++ block_lines data "electricity" "### Recommendations for Electricity"
         electricity_line
  /\ (forall item item', fertilizer_line item = fertilizer_line item')
  /\ (forall item item', fuel_line item = fuel_line item')
  /\ (forall item item', electricity_line item = electricity_line item')
  /\ (forall item item', livestock_line item = livestock_line item' ->
                         item = item')
  /\ (forall item item', crops_line item = crops_line item' -> item = item').
Proof.
  split; [|repeat split; try reflexivity].
  - unfold generate_recommendations. rewrite !recommend_app.
    simpl. rewrite <- !app_assoc. reflexivity.
  - intros item item' H. unfold livestock_line in H.
    apply (inj (String.app _)) in H. now apply string_app_inj_r in H.
  - intros item item' H. unfold crops_line in H.
    apply (inj (String.app _)) in H. now apply string_app_inj_r in H.
Qed.

(** *** When a category is silent *)

(** The statement that a category all of whose items have quantity 0 (or
    that is absent) adds nothing, not even its header. *)
Definition header_needs_positive_item (data : quantities) : Prop :=
  forall category header line recommendations,
    (forall item quantity,
       In (item, quantity) (get data category []) -> quantity == 0) ->
    recommend data category header line recommendations = recommendations.

(** C5, as stated, fails: one livestock item entered with quantity 0 still
    produces the livestock header. *)
Lemma header_without_positive_item :
  ~ header_needs_positive_item [("livestock", [("Beef Cow", 0)])].
Proof.
  intros H.
  specialize (H "livestock" "### Recommendations for Livestock"
                livestock_line []).
  assert (Hzero : forall item quantity,
            In (item, quantity)
               (get [("livestock", [("Beef Cow", 0)])] "livestock" []) ->
            quantity == 0).
  { intros item quantity [Heq|[]]. injection Heq as _ <-. reflexivity. }
  specialize (H Hzero). vm_compute in H. discriminate H.
Qed.

(** C5, amended: a category adds output only if it is present with a
    non-empty item mapping.  An absent category, or one with an empty
    mapping, adds nothing.  A category with a non-empty mapping adds its
    header followed by one line for each item with a positive quantity, and
    for no other item; so when all its quantities are 0 it adds exactly
    the header. *)
Theorem recommend_block (data : quantities) (category header : string)
    (line : string -> string) (recommendations : list string) :
  (dict_find data category = None \/ dict_find data category = Some [] ->
   recommend data category header line recommendations = recommendations) /\
  (forall items,
     dict_find data category = Some items -> items <> [] ->
     recommend data category header line recommendations
     = recommendations ++ header :: map line (positive_items items) /\
     (forall item,
        In item (positive_items items) <->
        exists quantity, In (item, quantity) items /\ 0 < quantity) /\
     ((forall item quantity, In (item, quantity) items -> quantity <= 0) ->
      recommend data category header line recommendations
      = recommendations ++ [header])).
Proof.
  split.
  - intros [Hc|Hc]; unfold recommend; now rewrite Hc.
  - intros items Hc Hne.
    assert (Hrun : recommend data category header line recommendations
                   = recommendations ++ header :: map line (positive_items items)).
    { rewrite recommend_app. unfold block_lines. rewrite Hc.
      destruct items; [congruence|reflexivity]. }
    split; [exact Hrun|]. split; [apply positive_items_In|].
    intros Hall. rewrite Hrun, (positive_items_nil items Hall). reflexivity.
Qed.

Lemma recommend_block_witness :
  recommend [("livestock", [("Beef Cow", 0)])] "livestock"
    "### Recommendations for Livestock" livestock_line []
  = ["### Recommendations for Livestock"].
Proof.
  apply (proj2 (recommend_block [("livestock", [("Beef Cow", 0)])] "livestock"
                  "### Recommendations for Livestock" livestock_line [])
           [("Beef Cow", 0)]).
  - reflexivity.
  - discriminate.
  - intros item quantity [Heq|[]]. injection Heq as _ <-. discriminate.
Defined.

Lemma generate_recommendations_lines_witness :
  generate_recommendations [("livestock", [("Beef Cow", 2); ("Pigs", 1)])]
  = [ "### Recommendations for Livestock";
      livestock_line "Beef Cow"; livestock_line "Pigs" ].
Proof.
  rewrite (proj1 (generate_recommendations_lines
                    [("livestock", [("Beef Cow", 2); ("Pigs", 1)])])).
  reflexivity.
Defined.

(** ** The store: frames and fresh results *)

Module HeapFacts.
Import Heap.

(** *** Building a store from values *)

Definition items_obj (items : dict Q) : obj :=
  ODict (map (fun iq => (fst iq, VNum (snd iq))) items).

(** Allocates the item mappings of [d], then returns the entries of the
    outer dictionary. *)
Fixpoint alloc_entries (d : dict (dict Q)) : M (dict val) :=
  match d with
  | [] => ret []
  | (key, items) :: rest =>
      l <~ alloc (items_obj items) ;;
      entries <~ alloc_entries rest ;;
      ret ((key, VRef l) :: entries)
  end.

Definition alloc_nested (d : dict (dict Q)) : M loc :=
  entries <~ alloc_entries d ;;
  alloc (ODict entries).

(** A store holding the factor table and the quantity input [data], with
    their addresses. *)
Definition initial (data : quantities) : result (loc * loc) * heap :=
  (g <~ alloc_nested EMISSION_FACTORS ;;
   d <~ alloc_nested data ;;
   ret (g, d)) [].

Local Open Scope nat_scope.

(** *** Operations that leave a prefix of the store alone *)

(** The store may grow, and the objects at addresses below [n] are the
    same in [h'] as in [h]. *)
Definition preserved (n : nat) (h h' : heap) : Prop :=
  length h <= length h' /\ forall l, l < n -> h' !! l = h !! l.

(** Whatever store of at least [n] objects [m] starts from, and whether it
    returns or raises, it preserves the objects below [n]. *)
Definition quiet {A : Type} (n : nat) (m : M A) : Prop :=
  forall h, n <= length h -> preserved n h (snd (m h)).

Lemma preserved_refl n h : preserved n h h.
Proof. split; [lia|reflexivity]. Qed.

Lemma preserved_trans n h h1 h2 :
  preserved n h h1 -> preserved n h1 h2 -> preserved n h h2.
Proof.
  intros [Hl1 Hp1] [Hl2 Hp2]. split; [lia|].
  intros l Hl. rewrite Hp2, Hp1 by exact Hl. reflexivity.
Qed.

(** A store that preserves all of [h] extends it. *)
Lemma preserved_extends h h' :
  preserved (length h) h h' -> exists new, h' = h ++ new.
Proof.
  intros [Hlen Hp]. exists (drop (length h) h').
  apply list_eq. intros i.
  destruct (decide (i < length h)) as [Hi|Hi].
  - rewrite lookup_app_l by exact Hi. now apply Hp.
  - rewrite lookup_app_r by lia. rewrite lookup_drop. f_equal. lia.
Qed.

Create HintDb quiet.

Lemma quiet_ret {A : Type} n (a : A) : quiet n (ret a).
Proof. intros h _. apply preserved_refl. Qed.

Lemma quiet_raise {A : Type} n e : quiet n (@raise A e).
Proof. intros h _. apply preserved_refl. Qed.

Lemma quiet_lift {A : Type} n (r : result A) : quiet n (lift r).
Proof. intros h _. apply preserved_refl. Qed.

Lemma quiet_bind {A B : Type} n (m : M A) (k : A -> M B) :
  quiet n m -> (forall a, quiet n (k a)) -> quiet n (mbind m k).
Proof.
  intros Hm Hk h Hn. unfold mbind.
  specialize (Hm h Hn). destruct (m h) as [[a|e] h1]; simpl in *.
  - apply (preserved_trans n h h1); [exact Hm|].
    apply Hk. destruct Hm. lia.
  - exact Hm.
Qed.

Lemma quiet_alloc n o : quiet n (alloc o).
Proof.
  intros h Hn. unfold alloc. simpl. split.
  - rewrite length_app. simpl. lia.
  - intros l Hl. apply lookup_app_l. lia.
Qed.

Lemma quiet_load n l : quiet n (load l).
Proof.
  intros h _. unfold load. case_match; simpl; apply preserved_refl.
Qed.

(** An update in place is quiet when it is made above the prefix. *)
Lemma quiet_store n l o : n <= l -> quiet n (store l o).
Proof.
  intros Hl h _. unfold store. simpl. split.
  - rewrite length_insert. lia.
  - intros l' Hl'. apply list_lookup_insert_ne. lia.
Qed.

#[export] Hint Resolve quiet_ret quiet_raise quiet_lift quiet_alloc
  quiet_load quiet_store : quiet.

(** What follows an allocation is run with an address above the prefix. *)
Lemma quiet_alloc_bind {B : Type} n o (k : loc -> M B) :
  (forall l, n <= l -> quiet n (k l)) -> quiet n (mbind (alloc o) k).
Proof.
  intros Hk h Hn. unfold mbind, alloc.
  apply (preserved_trans n h (h ++ [o])).
  - now apply quiet_alloc.
  - apply (Hk (length h) Hn). rewrite length_app. simpl. lia.
Qed.

(** Decomposes a goal [quiet n m] along the structure of [m]. *)
Ltac quiet_step :=
  match goal with
  | |- quiet _ (mbind (alloc _) _) => apply quiet_alloc_bind; intros ? ?
  | |- quiet _ (mbind _ _) => apply quiet_bind; [|intros ?]
  | |- quiet _ (match ?x with _ => _ end) => destruct x
  | |- quiet _ _ => solve [eauto with quiet]
  end.

Ltac quiet_auto := repeat quiet_step.

Lemma quiet_load_dict n l : quiet n (load_dict l).
Proof. unfold load_dict. quiet_auto. Qed.

Lemma quiet_load_list n l : quiet n (load_list l).
Proof. unfold load_list. quiet_auto. Qed.

Lemma quiet_as_num n v : quiet n (as_num v).
Proof. unfold as_num. quiet_auto. Qed.

Lemma quiet_as_ref n v : quiet n (as_ref v).
Proof. unfold as_ref. quiet_auto. Qed.

#[export] Hint Resolve quiet_load_dict quiet_load_list quiet_as_num
  quiet_as_ref : quiet.

Lemma quiet_subscript n d key : quiet n (subscript d key).
Proof. unfold subscript. quiet_auto. Qed.

Lemma quiet_last_item n l : quiet n (last_item l).
Proof. unfold last_item. quiet_auto. Qed.

Lemma quiet_append n l v : n <= l -> quiet n (append l v).
Proof. intros Hl. unfold append. quiet_auto. Qed.

Lemma quiet_setitem n d key v : n <= d -> quiet n (setitem d key v).
Proof. intros Hd. unfold setitem. quiet_auto. Qed.

#[export] Hint Resolve quiet_subscript quiet_last_item quiet_append
  quiet_setitem : quiet.

Lemma quiet_for_each {X : Type} n (xs : list X) (body : X -> M unit) :
  (forall x, quiet n (body x)) -> quiet n (for_each xs body).
Proof.
  intros Hbody. induction xs as [|x xs IH]; simpl; quiet_auto.
Qed.

Lemma quiet_fold_m {X S : Type} n (xs : list X) (s : S)
    (body : S -> X -> M S) :
  (forall s x, quiet n (body s x)) -> quiet n (fold_m xs s body).
Proof.
  intros Hbody. revert s. induction xs as [|x xs IH]; intros s; simpl;
    quiet_auto.
Qed.

Lemma quiet_repeat_m n k (body : M unit) :
  quiet n body -> quiet n (repeat_m k body).
Proof.
  intros Hbody. induction k as [|k IH]; simpl; quiet_auto.
Qed.

#[export] Hint Resolve quiet_for_each quiet_fold_m quiet_repeat_m : quiet.

(** *** The operations are quiet

    None of the updates an operation makes is to an object that existed
    when it was called: the only objects updated in place are the ones the
    operation has allocated itself. *)

Lemma quiet_get_emission_factors n g : quiet n (get_emission_factors g).
Proof. apply quiet_ret. Qed.

Lemma quiet_calculate_emissions n quantity factor :
  quiet n (calculate_emissions quantity factor).
Proof. unfold calculate_emissions. quiet_auto. Qed.

#[export] Hint Resolve quiet_get_emission_factors quiet_calculate_emissions
  : quiet.

Lemma quiet_add_term n factors category acc iq :
  quiet n (add_term factors category acc iq).
Proof. unfold add_term. quiet_auto. Qed.

#[export] Hint Resolve quiet_add_term : quiet.

Lemma quiet_add_category n factors emissions ci :
  n <= emissions -> quiet n (add_category factors emissions ci).
Proof. intros He. unfold add_category. quiet_auto. Qed.

#[export] Hint Resolve quiet_add_category : quiet.

Lemma quiet_calculate_total_emissions n g data :
  quiet n (calculate_total_emissions g data).
Proof. unfold calculate_total_emissions. quiet_auto. Qed.

Lemma quiet_subscript_num n d key : quiet n (subscript_num d key).
Proof. unfold subscript_num. quiet_auto. Qed.

Lemma quiet_append_growth n l : n <= l -> quiet n (append_growth l).
Proof. intros Hl. unfold append_growth. quiet_auto. Qed.

#[export] Hint Resolve quiet_calculate_total_emissions quiet_subscript_num
  quiet_append_growth : quiet.

Lemma quiet_predict_future_emissions n g data :
  quiet n (predict_future_emissions g data).
Proof.
  unfold predict_future_emissions. quiet_auto.
  - apply quiet_fold_m. intros acc e. quiet_auto.
  - apply quiet_repeat_m. quiet_auto.
Qed.

Lemma quiet_recommend n data category header line recommendations :
  n <= recommendations ->
  quiet n (recommend data category header line recommendations).
Proof.
  intros Hr. unfold recommend. quiet_auto.
  apply quiet_for_each. intros iq. quiet_auto.
Qed.

#[export] Hint Resolve quiet_recommend : quiet.

Lemma quiet_generate_recommendations n data :
  quiet n (generate_recommendations data).
Proof. unfold generate_recommendations. quiet_auto. Qed.

#[export] Hint Resolve quiet_predict_future_emissions
  quiet_generate_recommendations Nat.le_0_l : quiet.

(** *** Results are new objects *)

(** [l] is the address of an object of [h'] that [h] does not have. *)
Definition new_in (h h' : heap) (l : loc) : Prop :=
  length h <= l < length h'.

(** [Post] holds of the result and the final store whenever [m], started
    in [h], returns. *)
Definition run_ok {A : Type} (h : heap) (m : M A)
    (Post : A -> heap -> Prop) : Prop :=
  forall a h', m h = (Ok a, h') -> Post a h'.

Lemma run_bind {A B : Type} h (m : M A) (k : A -> M B) Post :
  (forall a h1, m h = (Ok a, h1) -> run_ok h1 (k a) Post) ->
  run_ok h (mbind m k) Post.
Proof.
  intros H b h' E. unfold mbind in E.
  destruct (m h) as [[a|e] h1] eqn:Em; [|discriminate].
  exact (H a h1 eq_refl b h' E).
Qed.

Lemma run_grows {A : Type} (m : M A) h r h1 :
  quiet 0 m -> m h = (r, h1) -> length h <= length h1.
Proof.
  intros Hq E. destruct (Hq h (Nat.le_0_l _)) as [Hl _].
  now rewrite E in Hl.
Qed.

Lemma run_alloc o h l h1 :
  alloc o h = (Ok l, h1) -> l = length h /\ h1 = h ++ [o].
Proof. unfold alloc. intros [= <- <-]. now split. Qed.

(** One step of a run: names the intermediate result and store, and
    records what the step did to the size of the store. *)
Ltac run_step :=
  apply run_bind;
  let a := fresh "a" in
  let h1 := fresh "h" in
  let E := fresh "E" in
  intros a h1 E;
  first
    [ apply run_alloc in E; destruct E as [? ?]
    | apply run_grows in E; [|solve [quiet_auto]] ].

Lemma calculate_total_emissions_new g data h :
  run_ok h (calculate_total_emissions g data) (fun r h' => new_in h h' r).
Proof.
  unfold calculate_total_emissions.
  do 3 run_step.
  apply run_bind. intros [] h4 E4.
  apply run_grows in E4; [|solve [quiet_auto]].
  intros r h' [= <- <-]. subst. unfold new_in.
  rewrite length_app in E4. simpl in E4. lia.
Qed.

Lemma generate_recommendations_new data h :
  run_ok h (generate_recommendations data) (fun r h' => new_in h h' r).
Proof.
  unfold generate_recommendations.
  do 6 run_step.
  intros r h' [= <- <-]. subst. unfold new_in.
  rewrite length_app in *. simpl in *. lia.
Qed.

(** The dictionary returned by the projection, and the two lists it
    holds, are all new. *)
Lemma predict_future_emissions_new g data h :
  run_ok h (predict_future_emissions g data)
    (fun r h' =>
       new_in h h' r /\
       exists t d,
         h' !! r = Some (ODict [("traditional", VRef t); ("reduced", VRef d)])
         /\ new_in h h' t /\ new_in h h' d).
Proof.
  unfold predict_future_emissions.
  do 9 run_step.
  apply run_bind. intros elems h10 E10.
  apply run_grows in E10; [|solve [quiet_auto]].
  apply run_bind. intros scaled h11 E11.
  apply run_grows in E11.
  2:{ apply quiet_fold_m. intros acc e. quiet_auto. }
  do 2 run_step.
  apply run_bind. intros [] h14 E14.
  apply run_grows in E14.
  2:{ apply quiet_repeat_m. quiet_auto. }
  intros r h' Elast. apply run_alloc in Elast. destruct Elast as [-> ->].
  subst. unfold new_in. rewrite !length_app in *. simpl in *.
  split; [lia|]. eexists _, _. split.
  - apply list_lookup_middle. reflexivity.
  - lia.
Qed.

(** A quiet operation extends the store it was started in, and what it
    returns is judged in the extended store. *)
Lemma frame_of {A : Type} (m : M A) (h : heap) (Post : A -> heap -> Prop) :
  quiet (length h) m ->
  run_ok h m Post ->
  exists new,
    snd (m h) = h ++ new /\
    forall a, fst (m h) = Ok a -> Post a (h ++ new).
Proof.
  intros Hq Hrun.
  destruct (preserved_extends h (snd (m h)) (Hq h (le_n _))) as [new Hnew].
  exists new. split; [exact Hnew|].
  intros a Ha. rewrite <- Hnew. apply Hrun.
  destruct (m h) as [r h']. simpl in Ha. now subst r.
Qed.

(** C10: each core operation leaves every object of the store it is
    called in as it was, so in particular the quantity input with its item
    mappings and the global factor table with its tables, whether it
    returns or raises: the store afterwards is the store before, followed
    by the objects the call has allocated.  The per-item calculation
    allocates nothing.  The dictionary of totals, the dictionary of the
    projection with the two lists it holds, and the list of
    recommendations are among the newly allocated objects. *)
Theorem operations_frame (h : heap) (g data : loc) (quantity factor : val) :
  snd (calculate_emissions quantity factor h) = h /\
  (exists new,
     snd (calculate_total_emissions g data h) = h ++ new /\
     forall r,
       fst (calculate_total_emissions g data h) = Ok r ->
       new_in h (h ++ new) r) /\
  (exists new,
     snd (predict_future_emissions g data h) = h ++ new /\
     forall r,
       fst (predict_future_emissions g data h) = Ok r ->
       new_in h (h ++ new) r /\
       exists t d,
         (h ++ new) !! r
         = Some (ODict [("traditional", VRef t); ("reduced", VRef d)]) /\
         new_in h (h ++ new) t /\ new_in h (h ++ new) d) /\
  (exists new,
     snd (generate_recommendations data h) = h ++ new /\
     forall r,
       fst (generate_recommendations data h) = Ok r ->
       new_in h (h ++ new) r).
Proof.
  split; [|split; [|split]].
  - unfold calculate_emissions. destruct quantity, factor; reflexivity.
  - apply (frame_of (calculate_total_emissions g data) h
             (fun r h' => new_in h h' r)).
    + apply quiet_calculate_total_emissions.
    + apply calculate_total_emissions_new.
  - apply (frame_of (predict_future_emissions g data) h
             (fun r h' =>
                new_in h h' r /\
                exists t d,
                  h' !! r
                  = Some (ODict [("traditional", VRef t); ("reduced", VRef d)])
                  /\ new_in h h' t /\ new_in h h' d)).
    + apply quiet_predict_future_emissions.
    + apply predict_future_emissions_new.
  - apply (frame_of (generate_recommendations data) h
             (fun r h' => new_in h h' r)).
    + apply quiet_generate_recommendations.
    + apply generate_recommendations_new.
Qed.

End HeapFacts.

(** ** The two embeddings on an example

    On a store built from the quantities of the worked example, the
    store-level operations return objects that hold what the value-level
    operations return. *)

Definition list_obj (l : list Q) : Heap.obj := Heap.OList (map Heap.VNum l).

Example store_totals :
  exists g d h r new,
    HeapFacts.initial wheat_urea_input = (Ok (g, d), h) /\
    Heap.calculate_total_emissions g d h = (Ok r, h ++ new) /\
    exists emissions,
      calculate_total_emissions wheat_urea_input = Ok emissions /\
      (h ++ new) !! r = Some (HeapFacts.items_obj emissions).
Proof.
  do 5 eexists. split; [reflexivity|]. split.
  - vm_compute. reflexivity.
  - eexists. split; reflexivity.
Qed.

Example store_projection :
  exists g d h r new t u,
    HeapFacts.initial wheat_urea_input = (Ok (g, d), h) /\
    Heap.predict_future_emissions g d h = (Ok r, h ++ new) /\
    (h ++ new) !! r
    = Some (Heap.ODict [ ("traditional", Heap.VRef t);
                         ("reduced", Heap.VRef u) ]) /\
    exists p,
      predict_future_emissions wheat_urea_input = Ok p /\
      (h ++ new) !! t = Some (list_obj (traditional p)) /\
      (h ++ new) !! u = Some (list_obj (reduced p)).
Proof.
  do 7 eexists. split; [reflexivity|]. split.
  - vm_compute. reflexivity.
  - split; [reflexivity|]. eexists. split; [reflexivity|].
    split; reflexivity.
Qed.

Example store_recommendations :
  exists g d h r new,
    HeapFacts.initial wheat_urea_input = (Ok (g, d), h) /\
    Heap.generate_recommendations d h = (Ok r, h ++ new) /\
    (h ++ new) !! r
    = Some (Heap.OList (map Heap.VStr
                          (generate_recommendations wheat_urea_input))).
Proof.
  do 5 eexists. split; [reflexivity|]. split.
  - vm_compute. reflexivity.
  - reflexivity.
Qed.

(** ** The store-level totals compute the value-level totals

    On any store that holds the factor table and the quantity input, the
    store-level [calculate_total_emissions] returns a new dictionary that
    holds what the value-level function returns, and raises what it
    raises. *)

Definition holds_entry (h : Heap.heap) (e : string * Heap.val)
    (ci : string * dict Q) : Prop :=
  fst e = fst ci /\
  exists a, snd e = Heap.VRef a /\
            h !! a = Some (HeapFacts.items_obj (snd ci)).

(** The object at [l] is a dictionary of addresses of the item mappings of
    [d], in the order of [d]. *)
Definition holds_nested (h : Heap.heap) (l : Heap.loc) (d : dict (dict Q))
    : Prop :=
  exists entries,
    h !! l = Some (Heap.ODict entries) /\ Forall2 (holds_entry h) entries d.

Lemma holds_entry_app h k e ci :
  holds_entry h e ci -> holds_entry (h ++ k) e ci.
Proof.
  intros [Hk (a & Ha & Hl)]. split; [exact Hk|].
  exists a. split; [exact Ha|].
  rewrite lookup_app_l; [exact Hl|]. eapply lookup_lt_Some, Hl.
Qed.

Lemma holds_nested_app h k l d :
  holds_nested h l d -> holds_nested (h ++ k) l d.
Proof.
  intros (entries & Hl & Hall). exists entries. split.
  - rewrite lookup_app_l; [exact Hl|]. eapply lookup_lt_Some, Hl.
  - eapply Forall2_impl; [exact Hall|]. intros e ci. apply holds_entry_app.
Qed.

Lemma holds_find h entries d c :
  Forall2 (holds_entry h) entries d ->
  match dict_find d c with
  | Some items =>
      exists a, dict_find entries c = Some (Heap.VRef a) /\
                h !! a = Some (HeapFacts.items_obj items)
  | None => dict_find entries c = None
  end.
Proof.
  induction 1 as [|[k v] [k' items] entries d [Hk (a & Ha & Hl)] _ IH];
    simpl in *; [reflexivity|].
  subst k v. destruct (String.eqb k' c); [|exact IH].
  exists a. split; [reflexivity | exact Hl].
Qed.

Lemma dict_find_items_obj (items : dict Q) key :
  dict_find (map (fun iq => (fst iq, Heap.VNum (snd iq))) items) key
  = option_map Heap.VNum (dict_find items key).
Proof.
  induction items as [|[k q] items IH]; simpl; [reflexivity|].
  destruct (String.eqb k key); [reflexivity | exact IH].
Qed.

Lemma add_term_spec h g factors category acc item quantity :
  holds_nested h g factors ->
  Heap.add_term g category acc (item, Heap.VNum quantity) h
  = (factor <- lookup_factor factors category item ;;
     Ok (acc + calculate_emissions quantity factor), h).
Proof.
  intros (entries & Hg & Hall).
  pose proof (holds_find h entries factors category Hall) as Hfind.
  unfold Heap.add_term, Heap.subscript, Heap.load_dict, Heap.load,
    Heap.mbind, Heap.lift, lookup_factor, getitem, bind.
  rewrite Hg. simpl.
  destruct (dict_find factors category) as [table|].
  - destruct Hfind as (a & -> & Ha). simpl. rewrite Ha. simpl.
    unfold get. rewrite dict_find_items_obj.
    destruct (dict_find table item); reflexivity.
  - rewrite Hfind. reflexivity.
Qed.

Lemma sum_emissions_store h g factors category items acc :
  holds_nested h g factors ->
  Heap.fold_m (map (fun iq => (fst iq, Heap.VNum (snd iq))) items) acc
    (Heap.add_term g category) h
  = (sum_emissions factors category items acc, h).
Proof.
  intros Hg. revert acc.
  induction items as [|[item quantity] items IH]; intros acc;
    [reflexivity|].
  cbn [map Heap.fold_m sum_emissions fst snd]. unfold Heap.mbind at 1.
  rewrite (add_term_spec h g factors category acc item quantity Hg).
  unfold bind.
  destruct (lookup_factor factors category item); [apply IH | reflexivity].
Qed.

Lemma dict_set_new (done : dict Q) key total :
  ~ In key (keys done) ->
  Heap.dict_set (map (fun iq => (fst iq, Heap.VNum (snd iq))) done) key
    (Heap.VNum total)
  = map (fun iq => (fst iq, Heap.VNum (snd iq))) (done ++ [(key, total)]).
Proof.
  induction done as [|[k q] done IH]; simpl; intros Hnew; [reflexivity|].
  destruct (String.eqb_spec k key) as [->|_]; [tauto|].
  f_equal. apply IH. tauto.
Qed.

Lemma add_category_spec h g factors done e ci :
  holds_nested h g factors ->
  holds_entry h e ci ->
  ~ In (fst ci) (keys done) ->
  Heap.add_category g (length h) e (h ++ [HeapFacts.items_obj done])
  = match sum_emissions factors (fst ci) (snd ci) 0 with
    | Ok total =>
        (Ok tt, h ++ [HeapFacts.items_obj (done ++ [(fst ci, total)])])
    | Raise err => (Raise err, h ++ [HeapFacts.items_obj done])
    end.
Proof.
  intros Hg [Hk (a & Ha & Hl)] Hnew. destruct e as [k v]. simpl in *.
  subst k v.
  unfold Heap.add_category. cbn [fst snd Heap.as_ref].
  unfold Heap.mbind at 1. unfold Heap.ret at 1.
  unfold Heap.mbind at 1. unfold Heap.load_dict at 1, Heap.load at 1.
  unfold Heap.mbind at 1.
  rewrite lookup_app_l by (eapply lookup_lt_Some, Hl). rewrite Hl.
  unfold HeapFacts.items_obj at 1. unfold Heap.ret at 1.
  unfold Heap.mbind at 1.
  rewrite (sum_emissions_store _ g factors)
    by (apply holds_nested_app, Hg).
  destruct (sum_emissions factors (fst ci) (snd ci) 0) as [total|err];
    [|reflexivity].
  unfold Heap.setitem, Heap.load_dict, Heap.load, Heap.mbind, Heap.store.
  rewrite list_lookup_middle by reflexivity. simpl.
  rewrite dict_set_new by exact Hnew.
  rewrite insert_app_r_alt by reflexivity.
  rewrite Nat.sub_diag. reflexivity.
Qed.

Lemma total_emissions_store h g factors entries data :
  holds_nested h g factors ->
  Forall2 (holds_entry h) entries data ->
  forall done,
    NoDup (keys done ++ keys data) ->
    match total_emissions_of factors data with
    | Ok emissions =>
        Heap.for_each entries (Heap.add_category g (length h))
          (h ++ [HeapFacts.items_obj done])
        = (Ok tt, h ++ [HeapFacts.items_obj (done ++ emissions)])
    | Raise err =>
        fst (Heap.for_each entries (Heap.add_category g (length h))
               (h ++ [HeapFacts.items_obj done]))
        = Raise err
    end.
Proof.
  intros Hg.
  induction 1 as [|e [category items] entries data He _ IH];
    intros done Hdup.
  - simpl. rewrite app_nil_r. reflexivity.
  - cbn [total_emissions_of Heap.for_each]. unfold Heap.mbind.
    assert (Hnew : ~ In category (keys done)).
    { intros Hin. unfold keys in Hdup. simpl in Hdup.
      apply NoDup_ListNoDup in Hdup.
      apply List.NoDup_remove_2 in Hdup. apply Hdup.
      apply in_or_app. left. exact Hin. }
    rewrite (add_category_spec h g factors done e (category, items) Hg He)
      by exact Hnew.
    cbn [fst snd]. unfold bind at 1.
    destruct (sum_emissions factors category items 0) as [total|err];
      [|reflexivity].
    specialize (IH (done ++ [(category, total)])).
    unfold keys in IH, Hdup. rewrite map_app, <- app_assoc in IH.
    specialize (IH Hdup). unfold bind.
    destruct (total_emissions_of factors data) as [emissions|err].
    + rewrite IH, <- app_assoc. reflexivity.
    + exact IH.
Qed.

(** X9: on a store that holds the factor table and the quantity input, the
    store-level function allocates one dictionary, which holds the totals
    the value-level function returns, and returns its address; no other
    object of the store changes.  When the value-level function raises, it
    raises the same exception. *)
Theorem calculate_total_emissions_store h g d data :
  holds_nested h g EMISSION_FACTORS ->
  holds_nested h d data ->
  NoDup (keys data) ->
  match calculate_total_emissions data with
  | Ok emissions =>
      Heap.calculate_total_emissions g d h
      = (Ok (length h), h ++ [HeapFacts.items_obj emissions])
  | Raise err => fst (Heap.calculate_total_emissions g d h) = Raise err
  end.
Proof.
  intros Hg (entries & Hd & Hall) Hdup.
  pose proof (total_emissions_store h g EMISSION_FACTORS entries data Hg
                Hall [] Hdup) as Hloop.
  unfold calculate_total_emissions, get_emission_factors.
  unfold Heap.calculate_total_emissions, Heap.get_emission_factors,
    Heap.load_dict, Heap.load, Heap.alloc, Heap.mbind, Heap.ret.
  rewrite Hd.
  change (Heap.ODict []) with (HeapFacts.items_obj []).
  destruct (total_emissions_of EMISSION_FACTORS data) as [emissions|err].
  - rewrite Hloop. reflexivity.
  - destruct (Heap.for_each _ _ _) as [[[]|err'] h']; simpl in Hloop;
      [discriminate|]. simpl. congruence.
Qed.

Lemma calculate_total_emissions_store_witness :
  exists emissions,
    calculate_total_emissions wheat_urea_input = Ok emissions /\
    Heap.calculate_total_emissions 5 11
      (snd (HeapFacts.initial wheat_urea_input))
    = (Ok (length (snd (HeapFacts.initial wheat_urea_input))),
       snd (HeapFacts.initial wheat_urea_input)
       ++ [HeapFacts.items_obj emissions]).
Proof.
  assert (Hentry : forall h k a items,
             h !! a = Some (HeapFacts.items_obj items) ->
             holds_entry h (k, Heap.VRef a) (k, items)).
  { intros h k a items Ha. split; [reflexivity|].
    exists a. split; [reflexivity | exact Ha]. }
  pose proof (calculate_total_emissions_store
                (snd (HeapFacts.initial wheat_urea_input)) 5%nat 11%nat
                wheat_urea_input) as Href.
  destruct (calculate_total_emissions wheat_urea_input) as [emissions|err]
    eqn:E; [|discriminate E].
  exists emissions. split; [reflexivity|]. apply Href.
  - eexists. split; [reflexivity|].
    repeat (constructor; [apply Hentry; reflexivity|]). constructor.
  - eexists. split; [reflexivity|].
    repeat (constructor; [apply Hentry; reflexivity|]). constructor.
  - apply NoDup_ListNoDup. unfold wheat_urea_input, keys. simpl.
    repeat (apply List.NoDup_cons; [simpl; intuition discriminate|]).
    apply List.NoDup_nil.
Defined.

Lemma operations_frame_witness :
  exists new,
    snd (Heap.calculate_total_emissions 5 11
           (snd (HeapFacts.initial wheat_urea_input)))
    = snd (HeapFacts.initial wheat_urea_input) ++ new /\
    forall r,
      fst (Heap.calculate_total_emissions 5 11
             (snd (HeapFacts.initial wheat_urea_input))) = Ok r ->
      HeapFacts.new_in (snd (HeapFacts.initial wheat_urea_input))
        (snd (HeapFacts.initial wheat_urea_input) ++ new) r.
Proof.
  exact (proj1 (proj2 (HeapFacts.operations_frame
                         (snd (HeapFacts.initial wheat_urea_input)) 5%nat 11%nat
                         (Heap.VNum 0) (Heap.VNum 0)))).
Defined.

(** * Further properties of the engine *)

(** ** When the totals raise *)



(** What the totals are, when they are returned. *)
Lemma total_emissions_of_Ok data emissions :
  total_emissions_of EMISSION_FACTORS data = Ok emissions ->
  emissions = totals_of data.
Proof.
  revert emissions.
  induction data as [|[category items] data IH]; intros emissions.
  - now intros [= <-].
  - cbn [total_emissions_of].
    destruct (sum_emissions EMISSION_FACTORS category items 0)
      as [total|] eqn:Hsum; [|discriminate].
    cbn [bind].
    destruct (total_emissions_of EMISSION_FACTORS data) as [rest|];
      [|discriminate].
    cbn [bind]. intros [= <-]. cbn [totals_of map fst snd].
    fold (totals_of data). rewrite <- (IH rest eq_refl). do 2 f_equal.
    destruct (dict_find EMISSION_FACTORS category) as [table|] eqn:Ht.
    + rewrite (sum_emissions_known _ _ table) in Hsum by exact Ht.
      injection Hsum as <-. unfold category_total, get. now rewrite Ht.
    + destruct items as [|iq items]; [now injection Hsum as <-|].
      rewrite sum_emissions_unknown_category in Hsum
        by (exact Ht || discriminate).
      discriminate.
Qed.

(** ** The comparison series *)

(** The bars of one category: an item with its annual emissions. *)
Definition bars (table : dict Q) (type_dict : dict Q) : list (string * Q) :=
  map (fun iq => (fst iq, calculate_emissions (snd iq) (get table (fst iq) 0)))
    type_dict.

Definition extend (acc : series) (rows : list (string * Q)) : series :=
  {| labels := labels acc ++ map fst rows;
     traditional_values := traditional_values acc ++ map snd rows;
     reduced_values :=
       reduced_values acc ++ map (fun row => snd row * 0.8) rows |}.

Definition known_items (table type_dict : dict Q) : bool :=
  forallb (contains table) (keys type_dict).

Lemma extend_nil acc : extend acc [] = acc.
Proof.
  destruct acc. unfold extend. simpl. now rewrite !app_nil_r.
Qed.

Lemma extend_app acc rows rows' :
  extend (extend acc rows) rows' = extend acc (rows ++ rows').
Proof.
  unfold extend. simpl. now rewrite !map_app, !app_assoc.
Qed.

Lemma add_emissions_known type_dict factor_dict acc :
  known_items factor_dict type_dict = true ->
  add_emissions type_dict factor_dict acc
  = Ok (extend acc (bars factor_dict type_dict)).
Proof.
  revert acc.
  induction type_dict as [|[item quantity] rest IH]; intros acc Hk.
  - simpl. now rewrite extend_nil.
  - unfold known_items in Hk. simpl in Hk.
    apply andb_prop in Hk as [Hitem Hrest]. unfold contains in Hitem.
    simpl. unfold getitem.
    destruct (dict_find factor_dict item) as [f|] eqn:Hf; [|discriminate].
    simpl. rewrite IH by exact Hrest.
    unfold extend, bars, get. simpl. rewrite Hf, <- !app_assoc. reflexivity.
Qed.


(** The input has an item mapping for [category], and the table of
    [category] knows every item of it. *)
Definition chartable (factors : dict (dict Q)) (data : quantities)
    (category : string) : bool :=
  match dict_find data category with
  | Some type_dict => known_items (get factors category []) type_dict
  | None => false
  end.

Definition comparable (data : quantities) : bool :=
  forallb (chartable EMISSION_FACTORS data) categories.

(** All bars, category after category in the order of the table. *)
Definition all_bars (factors : dict (dict Q)) (cats : list string)
    (data : quantities) : list (string * Q) :=
  flat_map (fun category =>
              bars (get factors category []) (get data category [])) cats.

Lemma comparison_loop_known factors cats data acc :
  (forall category, In category cats -> In category (keys factors)) ->
  forallb (chartable factors data) cats = true ->
  comparison_loop factors cats data acc
  = Ok (extend acc (all_bars factors cats data)).
Proof.
  revert acc.
  induction cats as [|category rest IH]; intros acc Hin Hall.
  - simpl. now rewrite extend_nil.
  - simpl in Hall. apply andb_prop in Hall as [Hc Hrest].
    unfold chartable in Hc. simpl. unfold getitem, get in *.
    destruct (dict_find data category) as [type_dict|]; [|discriminate].
    simpl.
    destruct (dict_find factors category) as [table|] eqn:Ht.
    2:{ apply dict_find_None in Ht. exfalso. apply Ht, Hin. now left. }
    simpl. rewrite add_emissions_known by exact Hc. simpl.
    rewrite IH; [|intros c Hc'; apply Hin; now right|exact Hrest].
    now rewrite extend_app.
Qed.









(** ** The projection keeps the order of the two scenarios *)

(** [x] after [k] years of growth. *)
Fixpoint grown (k : nat) (x : Q) : Q :=
  match k with
  | O => x
  | S k' => grown k' (x * 1.05)
  end.

Lemma compound_grown n l x k :
  (k <= n)%nat -> compound n l x !! (length l + k)%nat = Some (grown k x).
Proof.
  revert l x k. induction n as [|n IH]; intros l x k Hk.
  - assert (k = 0%nat) as -> by lia. simpl. rewrite Nat.add_0_r.
    now apply list_lookup_middle.
  - destruct k as [|k].
    + simpl. rewrite Nat.add_0_r.
      rewrite compound_prefix by (rewrite length_app; simpl; lia).
      rewrite lookup_app_l by (rewrite length_app; simpl; lia).
      now apply list_lookup_middle.
    + simpl. specialize (IH (l ++ [x]) (x * 1.05) k).
      rewrite length_app in IH. simpl in IH.
      replace (length l + S k)%nat with (length l + 1 + k)%nat by lia.
      apply IH. lia.
Qed.

Lemma compound_lookup n x i v :
  compound n [] x !! i = Some v -> (i <= n)%nat /\ v = grown i x.
Proof.
  intros Hv. assert (Hi : (i <= n)%nat).
  { apply lookup_lt_Some in Hv. rewrite compound_length in Hv.
    simpl in Hv. lia. }
  split; [exact Hi|].
  pose proof (compound_grown n [] x i Hi) as Hg. simpl in Hg. congruence.
Qed.

Lemma growth_le x y : x <= y -> x * 1.05 <= y * 1.05.
Proof. intros H. apply Qmult_le_compat_r; [exact H | discriminate]. Qed.

Lemma grown_le k x y : x <= y -> grown k x <= grown k y.
Proof.
  revert x y. induction k as [|k IH]; intros x y H; simpl; [exact H|].
  apply IH, growth_le, H.
Qed.

Lemma grown_nonneg k x : 0 <= x -> 0 <= grown k x.
Proof.
  revert x. induction k as [|k IH]; intros x H; simpl; [exact H|].
  apply IH. apply (Qmult_le_0_compat x 1.05); [exact H | discriminate].
Qed.

Lemma grown_increases k x : 0 <= x -> grown k x <= grown (S k) x.
Proof.
  intros H. simpl. apply grown_le.
  apply (Qle_trans _ (x * 1)).
  - rewrite Qmult_1_r. apply Qle_refl.
  - rewrite !(Qmult_comm x). apply Qmult_le_compat_r; [discriminate|exact H].
Qed.

(** The base total of an input with non-negative quantities. *)
Lemma totals_of_nonneg data category total :
  Forall (fun ci : string * dict Q =>
            Forall (fun iq : string * Q => 0 <= snd iq) (snd ci)) data ->
  In category categories ->
  dict_find (totals_of data) category = Some total ->
  0 <= total.
Proof.
  intros Hq Hc Ht. rewrite dict_find_totals_of in Ht.
  destruct (dict_find data category) as [items|] eqn:Hd; [|discriminate].
  injection Ht as <-.
  destruct (category_table category Hc) as [table Htable].
  unfold category_total, get. rewrite Htable.
  apply (sum_with_nonneg category); [exact Htable| |apply Qle_refl].
  apply dict_find_Some_In in Hd. rewrite List.Forall_forall in Hq.
  apply (Hq _ Hd).
Qed.

Lemma base_total_nonneg data base :
  Forall (fun ci : string * dict Q =>
            Forall (fun iq : string * Q => 0 <= snd iq) (snd ci)) data ->
  base_total (totals_of data) = Ok base ->
  0 <= base.
Proof.
  intros Hq. unfold base_total, getitem.
  destruct (dict_find (totals_of data) "livestock") as [l|] eqn:Hl;
    [|discriminate].
  destruct (dict_find (totals_of data) "crops") as [c|] eqn:Hc;
    [|discriminate].
  destruct (dict_find (totals_of data) "fertilizer") as [f|] eqn:Hf;
    [|discriminate].
  destruct (dict_find (totals_of data) "fuel") as [u|] eqn:Hu;
    [|discriminate].
  destruct (dict_find (totals_of data) "electricity") as [e|] eqn:He;
    [|discriminate].
  simpl. intros [= <-].
  apply totals_of_nonneg in Hl, Hc, Hf, Hu, He;
    try exact Hq; try (simpl; tauto).
  repeat (apply (Qle_trans _ (0 + 0)); [discriminate|];
          apply Qplus_le_compat; [|assumption]).
  exact Hl.
Qed.

(** X5: with non-negative quantities, whenever the projection returns, every
    projected value is non-negative, the reduced scenario is never above
    the traditional one in the same year, and neither series ever
    decreases from one year to the next. *)
Theorem predict_future_emissions_ordered (data : quantities) (p : projection) :
  Forall (fun ci : string * dict Q =>
            Forall (fun iq : string * Q => 0 <= snd iq) (snd ci)) data ->
  predict_future_emissions data = Ok p ->
  (forall i t r,
     traditional p !! i = Some t -> reduced p !! i = Some r ->
     0 <= r /\ r <= t) /\
  (forall i a b,
     traditional p !! i = Some a -> traditional p !! S i = Some b -> a <= b) /\
  (forall i a b,
     reduced p !! i = Some a -> reduced p !! S i = Some b -> a <= b).
Proof.
  intros Hq. unfold predict_future_emissions, calculate_total_emissions,
    get_emission_factors.
  destruct (total_emissions_of EMISSION_FACTORS data) as [emissions|] eqn:He;
    [|discriminate].
  apply total_emissions_of_Ok in He as ->. cbn [bind].
  destruct (base_total (totals_of data)) as [base|] eqn:Hb; [|discriminate].
  cbn [bind]. rewrite project_compound. intros Hp.
  assert (Ht : traditional p = compound 9 [] base) by now inversion Hp.
  assert (Hr : reduced p = compound 9 [] (base * 0.8)) by now inversion Hp.
  rewrite Ht, Hr. clear Hp Ht Hr.
  pose proof (base_total_nonneg data base Hq Hb) as Hbase.
  assert (Hred : 0 <= base * 0.8).
  { apply (Qmult_le_0_compat base 0.8); [exact Hbase | discriminate]. }
  assert (Hle : base * 0.8 <= base).
  { apply (Qle_trans _ (base * 1)).
    - rewrite !(Qmult_comm base).
      apply Qmult_le_compat_r; [discriminate|exact Hbase].
    - rewrite Qmult_1_r. apply Qle_refl. }
  split; [|split].
  - intros i t r Ht Hr.
    apply compound_lookup in Ht as [_ ->].
    apply compound_lookup in Hr as [_ ->].
    split; [now apply grown_nonneg | now apply grown_le].
  - intros i a b Ha Hb'.
    apply compound_lookup in Ha as [_ ->].
    apply compound_lookup in Hb' as [_ ->].
    now apply grown_increases.
  - intros i a b Ha Hb'.
    apply compound_lookup in Ha as [_ ->].
    apply compound_lookup in Hb' as [_ ->].
    now apply grown_increases.
Qed.

(** The projection of the worked example. *)
Definition wheat_urea_projection : projection :=
  {| traditional := compound 9 [] (0 + (0 + 10 * 0.69) + (0 + 5 * 1.87) + 0 + 0);
     reduced :=
       compound 9 [] ((0 + (0 + 10 * 0.69) + (0 + 5 * 1.87) + 0 + 0) * 0.8) |}.

Lemma predict_future_emissions_ordered_witness :
  predict_future_emissions wheat_urea_input = Ok wheat_urea_projection /\
  (forall i t r,
     traditional wheat_urea_projection !! i = Some t ->
     reduced wheat_urea_projection !! i = Some r ->
     0 <= r /\ r <= t) /\
  (forall i a b,
     traditional wheat_urea_projection !! i = Some a ->
     traditional wheat_urea_projection !! S i = Some b ->
     a <= b) /\
  (forall i a b,
     reduced wheat_urea_projection !! i = Some a ->
     reduced wheat_urea_projection !! S i = Some b -> a <= b).
Proof.
  split; [reflexivity|].
  apply (predict_future_emissions_ordered wheat_urea_input
           wheat_urea_projection); [|reflexivity].
  unfold wheat_urea_input.
  repeat (constructor; simpl; try discriminate).
Defined.

(** ** The recommendations and the order of the input *)

Lemma dict_find_perm {V : Type} (d d' : dict V) (key : string) :
  d ≡ₚ d' -> List.NoDup (keys d) -> dict_find d key = dict_find d' key.
Proof.
  induction 1 as [|[k v] d d' Hp IH|[k v] [k' v'] d|d d' d'' Hp IH Hp' IH'];
    intros Hnd.
  - reflexivity.
  - simpl. destruct (String.eqb k key); [reflexivity|].
    apply IH. simpl in Hnd. now apply List.NoDup_cons_iff in Hnd as [_ ?].
  - simpl.
    destruct (String.eqb_spec k key) as [->|Hk];
      destruct (String.eqb_spec k' key) as [->|Hk']; try reflexivity.
    simpl in Hnd. apply List.NoDup_cons_iff in Hnd as [Hin _].
    exfalso. apply Hin. now left.
  - rewrite IH by exact Hnd. apply IH'.
    apply (Permutation_NoDup (l := keys d)); [|exact Hnd].
    unfold keys. now apply Permutation_map.
Qed.

Lemma generate_recommendations_lookups data data' :
  (forall category,
     In category categories ->
     dict_find data category = dict_find data' category) ->
  generate_recommendations data = generate_recommendations data'.
Proof.
  intros H. unfold generate_recommendations, recommend.
  rewrite !H by (simpl; tauto). reflexivity.
Qed.

(** X6: the recommendations do not depend on the order in which the
    categories were put into the input: the blocks always come in the
    order livestock, crops, fertilizer, fuel, electricity. *)
Theorem generate_recommendations_category_order (data data' : quantities) :
  data ≡ₚ data' ->
  List.NoDup (keys data) ->
  generate_recommendations data = generate_recommendations data'.
Proof.
  intros Hp Hnd. apply generate_recommendations_lookups.
  intros category _. now apply dict_find_perm.
Qed.

Lemma generate_recommendations_category_order_witness :
  generate_recommendations
    [("crops", [("Wheat", 10)]); ("livestock", [("Sheep", 3)])]
  = generate_recommendations
      [("livestock", [("Sheep", 3)]); ("crops", [("Wheat", 10)])].
Proof.
  apply (generate_recommendations_category_order
           [("crops", [("Wheat", 10)]); ("livestock", [("Sheep", 3)])]
           [("livestock", [("Sheep", 3)]); ("crops", [("Wheat", 10)])]).
  - apply perm_swap.
  - simpl. repeat (apply List.NoDup_cons; [simpl; intuition discriminate|]).
    apply List.NoDup_nil.
Defined.

(** * The charts

    The three [plot_...] functions build a [plotly.graph_objects] figure and
    return it.  A figure is modelled by what the code puts into it: its
    traces, in the order they are added, each with the keyword arguments it
    is built from, and the layout properties set by [update_layout]. *)

Module go.

(** A position on the horizontal axis: an item or category name, or a
    year. *)
Inductive coordinate : Type :=
  | Name (s : string)
  | Year (n : nat).

Inductive trace : Type :=
  | Bar (x : list coordinate) (y : list Q) (name marker_color : option string)
  | Scatter (x : list coordinate) (y : list Q)
      (mode name marker_color : string).



(** The [legend=dict(...)] argument of [update_layout]. *)
Record legend_args : Type := Legend {
  orientation : string;
  entrywidth : Q;
  yanchor : string;
  y : Q;
  xanchor : string;
  x : Q;
  tracegroupgap : Q
}.

(** The layout properties the code sets; [None] for one left alone. *)
Record layout_args : Type := Layout {
  title_text : option string;
  xaxis_title : option string;
  yaxis_title : option string;
  barmode : option string;
  legend : option legend_args
}.

Record figure : Type := {
  data : list trace;
  layout : layout_args
}.

(** [go.Figure(data=traces)] *)
Definition Figure (traces : list trace) : figure :=
  {| data := traces;
     layout := {| title_text := None; xaxis_title := None;
                  yaxis_title := None; barmode := None; legend := None |} |}.

(** [fig.add_trace(t)] *)
Definition add_trace (fig : figure) (t : trace) : figure :=
  {| data := data fig ++ [t]; layout := layout fig |}.

Definition updated {A : Type} (old new : option A) : option A :=
  match new with
  | Some _ => new
  | None => old
  end.

(** [fig.update_layout(...)]: the properties given replace the old ones. *)
Definition update_layout (fig : figure) (changes : layout_args) : figure :=
  {| data := data fig;
     layout :=
       {| title_text := updated (title_text (layout fig)) (title_text changes);
          xaxis_title :=
            updated (xaxis_title (layout fig)) (xaxis_title changes);
          yaxis_title :=
            updated (yaxis_title (layout fig)) (yaxis_title changes);
          barmode := updated (barmode (layout fig)) (barmode changes);
          legend := updated (legend (layout fig)) (legend changes) |} |}.

End go.

(** The legend both grouped charts use. *)
Definition chart_legend : go.legend_args :=
  {| go.orientation := "h"; go.entrywidth := 100; go.yanchor := "bottom";
     go.y := 1.09; go.xanchor := "right"; go.x := 1;
     go.tracegroupgap := 10 |}.

(** Lines 63-81 of [plot_comparison_chart]: the figure built from the
    three lists. *)
Definition comparison_figure (s : series) : go.figure :=
  let fig := go.Figure [] in
  let fig :=
    go.add_trace fig
      (go.Bar (map go.Name (labels s)) (traditional_values s)
         (Some "Traditional Farming") (Some "pink")) in
  let fig :=
    go.add_trace fig
      (go.Bar (map go.Name (labels s)) (reduced_values s)
         (Some "Reduced GHG") (Some "purple")) in
  go.update_layout fig
    {| go.title_text := None;
       go.xaxis_title := Some "Farming";
       go.yaxis_title := Some "Annual Emissions (kg CO2e)";
       go.barmode := Some "group";
       go.legend := Some chart_legend |}.

(** [plot_comparison_chart], up to the figure it returns. *)
Definition plot_comparison_figure (data : quantities) : result go.figure :=
  s <- plot_comparison_chart data ;;
  Ok (comparison_figure s).

(** The dictionary literal [predict_future_emissions] returns (lines
    132-135), which the embedding above holds as a record. *)
Definition predicted_dict (p : projection) : dict (list Q) :=
  [ ("traditional", traditional p); ("reduced", reduced p) ].

Definition plot_time_series_chart (predicted_emissions : dict (list Q))
    : result go.figure :=
  let years := seq 2024 10 in
  traditional_emissions <- getitem predicted_emissions "traditional" ;;
  reduced_emissions <- getitem predicted_emissions "reduced" ;;
  let fig := go.Figure [] in
  let fig :=
    go.add_trace fig
      (go.Scatter (map go.Year years) traditional_emissions
         "lines+markers" "Traditional Farming" "pink") in
  let fig :=
    go.add_trace fig
      (go.Scatter (map go.Year years) reduced_emissions
         "lines+markers" "Reduced GHG" "purple") in
  Ok (go.update_layout fig
        {| go.title_text := None;
           go.xaxis_title := Some "Year";
           go.yaxis_title := Some "Emissions (kg CO2e)";
           go.barmode := None;
           go.legend := Some chart_legend |}).

(** [list(d.values())] *)
Definition values {V : Type} (d : dict V) : list V := map snd d.

Definition plot_total_emissions_chart (total_emissions : dict Q) : go.figure :=
  let fig :=
    go.Figure
      [ go.Bar (map go.Name (keys total_emissions)) (values total_emissions)
          None None ] in
  go.update_layout fig
    {| go.title_text := Some "Total Emissions by Category";
       go.xaxis_title := Some "Category";
       go.yaxis_title := Some "Total Emissions (kg CO2e)";
       go.barmode := None;
       go.legend := None |}.

(** ** The charts of the results *)






(** * The pages

    Streamlit runs the script from top to bottom at every interaction.
    What the script keeps from one run to the next is in
    [st.session_state]; what it reads from the user are the values its
    widgets return; what it produces are the elements it displays.  A run
    ends at the end of the script, at [st.rerun()], or at an exception
    nothing catches.

    The embedding threads the session state and the list of displayed
    elements through the script.  The values the widgets return in a run
    are given by a [user]: the script is a function of them. *)

Module st.

(** Where an element is displayed. *)
Inductive place : Type :=
  | body
  | sidebar
  | column (n : nat).

(** The elements the script displays, with the arguments it gives. *)
Inductive element : Type :=
  | PageConfig (page_title layout : string)
  | Title (text : string)
  | Subheader (text : string)
  | Write (text : string)
  | Image (path : string) (use_column_width : bool)
  | Error (text : string)
  | PlotlyChart (fig : go.figure) (use_container_width : bool)
  | Columns (n : nat)
  | Button (label : string)
  | Multiselect (label : string) (options : list string)
  | NumberInput (label : string) (min_value value : Q) (key : string)
  | Radio (label : string) (options : list string) (index : nat).

(** [st.session_state]: the script uses the keys [page] and [data]. *)
Record session_state : Type := SessionState {
  page : option string;
  data : option quantities
}.

(** What the widgets return during one run. *)
Record user : Type := User {
  chooses : string -> list string -> list string;
  enters : string -> string -> Q;
  presses : string -> bool;
  picks : string -> list string -> nat -> string
}.

(** What stops a run before the end of the script. *)
Inductive interrupt : Type :=
  | Uncaught (e : exn)
  | ValueError
  | AttributeError
  | RerunException.

Inductive outcome (A : Type) : Type :=
  | Return (a : A)
  | Stop (i : interrupt).

Arguments Return {A} a.
Arguments Stop {A} i.

Record run : Type := Run {
  session : session_state;
  shown : list (place * element)
}.

Definition script (A : Type) : Type := run -> outcome A * run.

Definition ret {A : Type} (a : A) : script A := fun r => (Return a, r).

Definition stop {A : Type} (i : interrupt) : script A :=
  fun r => (Stop i, r).

Definition bind {A B : Type} (m : script A) (k : A -> script B) : script B :=
  fun r =>
    match m r with
    | (Return a, r') => k a r'
    | (Stop i, r') => (Stop i, r')
    end.

(** A call into the engine: its exception, if any, stops the run. *)
Definition call {A : Type} (res : result A) : script A :=
  match res with
  | Ok a => ret a
  | Raise e => stop (Uncaught e)
  end.

Definition show (into : place) (e : element) : script unit :=
  fun r => (Return tt, {| session := session r;
                          shown := shown r ++ [(into, e)] |}).

(** *** Display calls *)

Definition set_page_config (page_title layout : string) : script unit :=
  show body (PageConfig page_title layout).

Definition title (into : place) (text : string) : script unit :=
  show into (Title text).

Definition subheader (into : place) (text : string) : script unit :=
  show into (Subheader text).

Definition write (into : place) (text : string) : script unit :=
  show into (Write text).

Definition image (into : place) (path : string) (use_column_width : bool)
    : script unit :=
  show into (Image path use_column_width).

Definition error (into : place) (text : string) : script unit :=
  show into (Error text).

Definition plotly_chart (into : place) (fig : go.figure)
    (use_container_width : bool) : script unit :=
  show into (PlotlyChart fig use_container_width).

Definition columns (into : place) (n : nat) : script unit :=
  show into (Columns n).

(** *** Widgets: displayed, and returning what the user gives *)

Definition button (u : user) (into : place) (label : string) : script bool :=
  bind (show into (Button label)) (fun _ => ret (presses u label)).

Definition multiselect (u : user) (into : place) (label : string)
    (options : list string) : script (list string) :=
  bind (show into (Multiselect label options))
    (fun _ => ret (chooses u label options)).

Definition number_input (u : user) (into : place) (label : string)
    (min_value value : Q) (key : string) : script Q :=
  bind (show into (NumberInput label min_value value key))
    (fun _ => ret (enters u label key)).

Definition radio (u : user) (into : place) (label : string)
    (options : list string) (index : nat) : script string :=
  bind (show into (Radio label options index))
    (fun _ => ret (picks u label options index)).

(** *** The session state *)

(** ['page' in st.session_state] *)
Definition has_page : script bool :=
  fun r => (Return (bool_decide (is_Some (page (session r)))), r).

(** [st.session_state.page] *)
Definition get_page : script string :=
  fun r =>
    match page (session r) with
    | Some p => (Return p, r)
    | None => (Stop AttributeError, r)
    end.

(** [st.session_state.page = p] *)
Definition set_page (p : string) : script unit :=
  fun r => (Return tt,
            {| session := {| page := Some p; data := data (session r) |};
               shown := shown r |}).

(** ['data' in st.session_state] *)
Definition has_data : script bool :=
  fun r => (Return (bool_decide (is_Some (data (session r)))), r).

(** [st.session_state.data] *)
Definition get_data : script quantities :=
  fun r =>
    match data (session r) with
    | Some d => (Return d, r)
    | None => (Stop AttributeError, r)
    end.

(** [st.session_state.data = d] *)
Definition set_data (d : quantities) : script unit :=
  fun r => (Return tt,
            {| session := {| page := page (session r); data := Some d |};
               shown := shown r |}).

(** [st.rerun()] *)
Definition rerun {A : Type} : script A := stop RerunException.

End st.

Notation "x <~ m ;; k" := (st.bind m (fun x => k))
  (at level 100, m at next level, right associativity).

(** ** Python values used by the pages *)

(** [d[key] = v] on a dictionary: the value of an existing key is
    replaced in place, a new key goes to the end. *)
Fixpoint assign {V : Type} (d : dict V) (key : string) (v : V) : dict V :=
  match d with
  | [] => [(key, v)]
  | (k, w) :: d' =>
      if String.eqb k key then (k, v) :: d' else (k, w) :: assign d' key v
  end.

(** [{key: value(key) for key in ks}], filling [acc]. *)
Fixpoint comprehension (ks : list string) (value : string -> st.script Q)
    (acc : dict Q) : st.script (dict Q) :=
  match ks with
  | [] => st.ret acc
  | key :: rest =>
      v <~ value key ;;
      comprehension rest value (assign acc key v)
  end.

Fixpoint index_of (x : string) (l : list string) : option nat :=
  match l with
  | [] => None
  | y :: l' =>
      if String.eqb y x then Some 0%nat else option_map S (index_of x l')
  end.

(** [l.index(x)] *)
Definition list_index (l : list string) (x : string) : st.script nat :=
  match index_of x l with
  | Some i => st.ret i
  | None => st.stop st.ValueError
  end.

(** [for x in xs: body(x)] *)
Fixpoint for_each {X : Type} (xs : list X) (body : X -> st.script unit)
    : st.script unit :=
  match xs with
  | [] => st.ret tt
  | x :: rest => _ <~ body x ;; for_each rest body
  end.

(** The double quote character. *)
Definition quote : string := String (Ascii.ascii_of_nat 34) EmptyString.

Definition introduction_text : string :=
  "
    ### Climate Change and Emission Reduction

    Climate change is one of the most pressing issues of our time, driven largely by the increase in greenhouse gases (GHGs) in our atmosphere. These gases trap heat and contribute to global warming, which leads to a range of environmental impacts including more frequent extreme weather events, rising sea levels, and disruptions to ecosystems.

    Agriculture is a significant contributor to GHG emissions, particularly through activities such as livestock farming, crop production, fertilizer use, fuel consumption, and electricity generation. Reducing emissions in these areas is crucial for mitigating climate change and promoting sustainable practices.

    The Mira GHG Calculator helps you estimate your emissions from various agricultural activities and provides insights into how you can reduce your carbon footprint. By inputting your data, you can visualize your emissions, compare traditional and reduced emission scenarios, and receive actionable recommendations for minimizing your impact.

    Let's work together to make a positive difference for our planet.
    ".

Definition instructions_text : string :=
  "
    - Navigate between the pages using the sidebar.
    - On the " +:+ quote +:+
  "Enter your Data" +:+ quote +:+
  " page, input the relevant information.
    - On the " +:+ quote +:+
  "Result" +:+ quote +:+
  " page, view the emissions comparison and recommendations.
    ".

Definition disclaimer_text : string :=
  "
    - The emission factors used are based on general data and may not reflect the exact conditions in your area.
    - This calculator provides estimates and should be used as a guide only.
    - For precise calculations and recommendations, please contact Mira consultants.
    ".

(** ** The page functions *)

Definition show_introduction (u : st.user) : st.script unit :=
  _ <~ st.title st.body "Food security & Sustainable Agriculture" ;;
  _ <~ st.image st.body "assets/mira.png" true ;;
  _ <~ st.write st.body introduction_text ;;
  pressed <~ st.button u st.body "Enter your Data" ;;
  if pressed : bool then
    _ <~ st.set_page "Enter your Data" ;;
    st.rerun
  else st.ret tt.

(** One of the five dictionary comprehensions of [show_input]:
    [{item: st.number_input(label(item), min_value=0, value=0,
                            key=key(item))
      for item in st.multiselect(select,
                    options=list(EMISSION_FACTORS[category].keys()))}] *)
Definition ask_quantities (u : st.user) (into : st.place)
    (category select : string) (label key : string -> string)
    : st.script (dict Q) :=
  table <~ st.call (getitem EMISSION_FACTORS category) ;;
  selected <~ st.multiselect u into select (keys table) ;;
  comprehension selected
    (fun item => st.number_input u into (label item) 0 0 (key item)) [].

Definition show_input (u : st.user) : st.script unit :=
  _ <~ st.title st.body "Enter your Data" ;;
  _ <~ st.columns st.body 2 ;;
  _ <~ st.subheader (st.column 1) "Livestock" ;;
  livestock_quantities <~
    ask_quantities u (st.column 1) "livestock" "Select Livestock Types"
      (fun animal => animal +:+ " Quantity (heads)")
      (fun animal => "livestock_" +:+ animal) ;;
  _ <~ st.subheader (st.column 1) "Crops" ;;
  crop_quantities <~
    ask_quantities u (st.column 1) "crops" "Select Crop Types"
      (fun crop => crop +:+ " Quantity (ha)")
      (fun crop => "crops_" +:+ crop) ;;
  _ <~ st.subheader (st.column 2) "Fertilizer" ;;
  fertilizer_quantities <~
    ask_quantities u (st.column 2) "fertilizer" "Select Fertilizer Types"
      (fun fertilizer => fertilizer +:+ " Quantity (kg)")
      (fun fertilizer => "fertilizer_" +:+ fertilizer) ;;
  _ <~ st.subheader (st.column 2) "Fuel" ;;
  fuel_quantities <~
    ask_quantities u (st.column 2) "fuel" "Select Fuel Types"
      (fun fuel => fuel +:+ " Quantity (liters/m³)")
      (fun fuel => "fuel_" +:+ fuel) ;;
  _ <~ st.subheader (st.column 2) "Electricity" ;;
  electricity_quantities <~
    ask_quantities u (st.column 2) "electricity" "Select Electricity Sources"
      (fun source => source +:+ " Quantity (kWh)")
      (fun source => "electricity_" +:+ source) ;;
  pressed <~ st.button u st.body "Calculate Emissions" ;;
  if pressed : bool then
    let data :=
      [ ("livestock", livestock_quantities);
        ("crops", crop_quantities);
        ("fertilizer", fertilizer_quantities);
        ("fuel", fuel_quantities);
        ("electricity", electricity_quantities) ] in
    _ <~ st.set_data data ;;
    _ <~ st.set_page "Result" ;;
    st.rerun
  else st.ret tt.

Definition show_results (u : st.user) : st.script unit :=
  _ <~ st.title st.body "Results" ;;
  has <~ st.has_data ;;
  if has : bool then
    data <~ st.get_data ;;
    total_emissions <~ st.call (calculate_total_emissions data) ;;
    predicted_emissions <~ st.call (predict_future_emissions data) ;;
    let recommendations := generate_recommendations data in
    _ <~ st.columns st.body 2 ;;
    _ <~ st.write (st.column 1) "### Total Emissions (kg CO2e):" ;;
    _ <~ st.plotly_chart (st.column 1)
           (plot_total_emissions_chart total_emissions) true ;;
    _ <~ st.write (st.column 2) "### Emissions Comparison:" ;;
    fig <~ st.call (plot_comparison_figure data) ;;
    _ <~ st.plotly_chart (st.column 2) fig true ;;
    _ <~ st.write st.body "### Predicted Emissions Over the Next Decade:" ;;
    fig <~ st.call (plot_time_series_chart
                      (predicted_dict predicted_emissions)) ;;
    _ <~ st.plotly_chart st.body fig true ;;
    _ <~ st.write st.body "### Recommendations" ;;
    for_each recommendations (fun rec => st.write st.body rec)
  else
    st.error st.body "No data available. Please enter your data first.".

Definition show_navigation_bar (u : st.user) : st.script unit :=
  _ <~ st.image st.sidebar "assets/logo.png" true ;;
  _ <~ st.title st.sidebar "GHG Calculator" ;;
  let pages := ["Home"; "Enter your Data"; "Result"] in
  has <~ st.has_page ;;
  index <~ (if has : bool
            then current <~ st.get_page ;; list_index pages current
            else st.ret 0%nat) ;;
  page <~ st.radio u st.sidebar EmptyString pages index ;;
  _ <~ st.set_page page ;;
  _ <~ st.write st.sidebar "### Instructions" ;;
  _ <~ st.write st.sidebar instructions_text ;;
  _ <~ st.write st.sidebar "### Disclaimer" ;;
  st.write st.sidebar disclaimer_text.

(** The script: the page configuration of line 7 and the main logic of
    lines 288-301. *)
Definition main (u : st.user) : st.script unit :=
  _ <~ st.set_page_config "Mira - GHG Calculator" "wide" ;;
  has <~ st.has_page ;;
  _ <~ (if has : bool then st.ret tt else st.set_page "Home") ;;
  _ <~ show_navigation_bar u ;;
  page <~ st.get_page ;;
  if String.eqb page "Home" then show_introduction u
  else if String.eqb page "Enter your Data" then show_input u
  else if String.eqb page "Result" then show_results u
  else st.error st.body "Unknown page.".

(** ** A logic for runs of the script *)

(** The message of the last branch of the main logic is not on display. *)
Definition known_page (shown : list (st.place * st.element)) : Prop :=
  forall into, ~ In (into, st.Error "Unknown page.") shown.

(** [triple P m Q X]: from a session satisfying [P], the run of [m] does
    not end in an exception; if it reaches the end of [m] with value [a]
    the session satisfies [Q a], if it ends in [st.rerun()] the session
    satisfies [X]; in both cases, if a known page was on display, one still
    is. *)
Definition triple {A : Type} (P : st.session_state -> Prop)
    (m : st.script A) (Q : A -> st.session_state -> Prop)
    (X : st.session_state -> Prop) : Prop :=
  forall r,
    P (st.session r) ->
    match m r with
    | (st.Return a, r') =>
        (known_page (st.shown r) -> known_page (st.shown r')) /\
        Q a (st.session r')
    | (st.Stop st.RerunException, r') =>
        (known_page (st.shown r) -> known_page (st.shown r')) /\
        X (st.session r')
    | (st.Stop _, _) => False
    end.

Section Rules.

Context {A B : Type}.
Implicit Types (P : st.session_state -> Prop) (X : st.session_state -> Prop).

Lemma triple_ret P (a : A) (Q : A -> st.session_state -> Prop) X :
  (forall s, P s -> Q a s) -> triple P (st.ret a) Q X.
Proof. intros H r HP. simpl. auto. Qed.

Lemma triple_bind P (m : st.script A) (k : A -> st.script B)
    (Q : A -> st.session_state -> Prop) (R : B -> st.session_state -> Prop) X :
  triple P m Q X ->
  (forall a, triple (Q a) (k a) R X) ->
  triple P (st.bind m k) R X.
Proof.
  intros Hm Hk r HP. unfold st.bind.
  specialize (Hm r HP). destruct (m r) as [[a|i] r'].
  - destruct Hm as [Hshown HQ]. specialize (Hk a r' HQ).
    destruct (k a r') as [[b|[]] r'']; try exact Hk;
      destruct Hk; split; auto.
  - exact Hm.
Qed.

Lemma triple_weaken P P' (m : st.script A)
    (Q Q' : A -> st.session_state -> Prop) X X' :
  (forall s, P' s -> P s) ->
  (forall a s, Q a s -> Q' a s) ->
  (forall s, X s -> X' s) ->
  triple P m Q X ->
  triple P' m Q' X'.
Proof.
  intros HP HQ HX Hm r HP'. specialize (Hm r (HP _ HP')).
  destruct (m r) as [[a|[]] r']; try exact Hm; destruct Hm; auto.
Qed.

Lemma triple_rerun P (Q : A -> st.session_state -> Prop) X :
  (forall s, P s -> X s) -> triple P st.rerun Q X.
Proof. intros H r HP. simpl. auto. Qed.

Lemma triple_call P (res : result A) (a : A) X :
  res = Ok a ->
  triple P (st.call res) (fun x s => P s /\ x = a) X.
Proof. intros -> r HP. simpl. auto. Qed.

Lemma triple_call_returns P (res : result A) X :
  (exists a, res = Ok a) ->
  triple P (st.call res) (fun _ s => P s) X.
Proof. intros [a ->] r HP. simpl. auto. Qed.

(** A fact that does not depend on the session leaves the precondition. *)
Lemma triple_pure P (fact : Prop) (m : st.script A)
    (Q : A -> st.session_state -> Prop) X :
  (fact -> triple P m Q X) ->
  triple (fun s => P s /\ fact) m Q X.
Proof. intros H r [HP Hf]. now apply H. Qed.

Lemma triple_exists {T : Type} (P : T -> st.session_state -> Prop)
    (m : st.script A) (Q : A -> st.session_state -> Prop) X :
  (forall x, triple (P x) m Q X) ->
  triple (fun s => exists x, P x s) m Q X.
Proof. intros H r [x HP]. now apply (H x). Qed.

End Rules.

Lemma known_page_app shown into e :
  known_page shown -> e <> st.Error "Unknown page." ->
  known_page (shown ++ [(into, e)]).
Proof.
  intros Hk He w Hin. apply in_app_or in Hin as [Hin|[Heq|[]]].
  - exact (Hk w Hin).
  - apply He. congruence.
Qed.

Lemma triple_show P into e X :
  e <> st.Error "Unknown page." ->
  triple P (st.show into e) (fun _ s => P s) X.
Proof.
  intros He r HP. simpl. split; [|exact HP].
  intros Hk. now apply known_page_app.
Qed.

Lemma triple_show_last P into e (Q : unit -> st.session_state -> Prop) X :
  e <> st.Error "Unknown page." ->
  (forall s, P s -> Q tt s) ->
  triple P (st.show into e) Q X.
Proof.
  intros He HQ r HP. simpl. split; [|now apply HQ].
  intros Hk. now apply known_page_app.
Qed.

Lemma triple_button P u into label X :
  triple P (st.button u into label)
    (fun b s => P s /\ b = st.presses u label) X.
Proof.
  unfold st.button. eapply triple_bind; [now apply triple_show|].
  intros ?. now apply triple_ret.
Qed.

Lemma triple_multiselect P u into label options X :
  triple P (st.multiselect u into label options)
    (fun chosen s => P s /\ chosen = st.chooses u label options) X.
Proof.
  unfold st.multiselect. eapply triple_bind; [now apply triple_show|].
  intros ?. now apply triple_ret.
Qed.

Lemma triple_number_input P u into label min_value value key X :
  triple P (st.number_input u into label min_value value key)
    (fun q s => P s /\ q = st.enters u label key) X.
Proof.
  unfold st.number_input. eapply triple_bind; [now apply triple_show|].
  intros ?. now apply triple_ret.
Qed.

Lemma triple_radio P u into label options index X :
  triple P (st.radio u into label options index)
    (fun p s => P s /\ p = st.picks u label options index) X.
Proof.
  unfold st.radio. eapply triple_bind; [now apply triple_show|].
  intros ?. now apply triple_ret.
Qed.

(** The session state, from a session that is known exactly. *)

Lemma triple_has_page s0 X :
  triple (fun s => s = s0) st.has_page
    (fun b s => s = s0 /\ b = bool_decide (is_Some (st.page s0))) X.
Proof. intros r Hs. simpl. rewrite Hs. auto. Qed.

Lemma triple_get_page s0 p X :
  st.page s0 = Some p ->
  triple (fun s => s = s0) st.get_page (fun x s => s = s0 /\ x = p) X.
Proof. intros Hp r Hs. unfold st.get_page. rewrite Hs, Hp. auto. Qed.

Lemma triple_set_page s0 p X :
  triple (fun s => s = s0) (st.set_page p)
    (fun _ s => s = {| st.page := Some p; st.data := st.data s0 |}) X.
Proof. intros r Hs. simpl. rewrite Hs. auto. Qed.

Lemma triple_set_page_last s0 p (Q : unit -> st.session_state -> Prop) X :
  Q tt {| st.page := Some p; st.data := st.data s0 |} ->
  triple (fun s => s = s0) (st.set_page p) Q X.
Proof. intros HQ r Hs. simpl. rewrite Hs. auto. Qed.

Lemma triple_has_data s0 X :
  triple (fun s => s = s0) st.has_data
    (fun b s => s = s0 /\ b = bool_decide (is_Some (st.data s0))) X.
Proof. intros r Hs. simpl. rewrite Hs. auto. Qed.

Lemma triple_get_data s0 d X :
  st.data s0 = Some d ->
  triple (fun s => s = s0) st.get_data (fun x s => s = s0 /\ x = d) X.
Proof. intros Hd r Hs. unfold st.get_data. rewrite Hs, Hd. auto. Qed.

Lemma triple_set_data s0 d X :
  triple (fun s => s = s0) (st.set_data d)
    (fun _ s => s = {| st.page := st.page s0; st.data := Some d |}) X.
Proof. intros r Hs. simpl. rewrite Hs. auto. Qed.

Lemma index_of_In x l :
  In x l -> exists i, index_of x l = Some i /\ (i < length l)%nat.
Proof.
  induction l as [|y l IH]; intros Hin; [destruct Hin|].
  simpl. destruct (String.eqb_spec y x) as [->|Hne].
  - exists 0%nat. split; [reflexivity | simpl; lia].
  - destruct IH as (i & Hi & Hlt); [destruct Hin; congruence|].
    exists (S i). rewrite Hi. split; [reflexivity | simpl; lia].
Qed.

Lemma triple_list_index P l x X :
  In x l ->
  triple P (list_index l x) (fun i s => P s /\ (i < length l)%nat) X.
Proof.
  intros Hin r HP. unfold list_index.
  destruct (index_of_In x l Hin) as (i & -> & Hi). simpl. auto.
Qed.

Lemma triple_list_index_at P l x i X :
  index_of x l = Some i ->
  triple P (list_index l x) (fun j s => P s /\ j = i) X.
Proof. intros Hi r HP. unfold list_index. rewrite Hi. simpl. auto. Qed.

(** The dictionary a comprehension builds. *)
Definition comprehended (ks : list string) (value : string -> Q)
    (acc : dict Q) : dict Q :=
  fold_left (fun d key => assign d key (value key)) ks acc.

Lemma triple_comprehension P ks (value : string -> st.script Q)
    (f : string -> Q) acc X :
  (forall key, triple P (value key) (fun v s => P s /\ v = f key) X) ->
  triple P (comprehension ks value acc)
    (fun d s => P s /\ d = comprehended ks f acc) X.
Proof.
  intros Hv. revert acc.
  induction ks as [|key rest IH]; intros acc; simpl.
  - now apply triple_ret.
  - eapply triple_bind; [apply Hv|]. intros v. simpl.
    apply triple_pure. intros ->. apply IH.
Qed.

Lemma triple_for_each {X' : Type} P (xs : list X')
    (body : X' -> st.script unit) X :
  (forall x, triple P (body x) (fun _ s => P s) X) ->
  triple P (for_each xs body) (fun _ s => P s) X.
Proof.
  intros Hb. induction xs as [|x rest IH]; simpl.
  - now apply triple_ret.
  - eapply triple_bind; [apply Hb|]. intros ?. exact IH.
Qed.

(** One step of a script: the rule of its first call, then the rest. *)
Ltac triple_rule :=
  first
    [ apply triple_button
    | apply triple_multiselect
    | apply triple_number_input
    | apply triple_radio
    | apply triple_has_page
    | apply triple_has_data
    | apply triple_set_page
    | apply triple_set_data
    | apply triple_get_page; (reflexivity || eassumption)
    | apply triple_get_data; (reflexivity || eassumption)
    | apply triple_show; discriminate ].

Ltac triple_fact :=
  try (apply triple_pure; first [intros -> | intros ?]).

Ltac triple_step :=
  eapply triple_bind; [ triple_rule | intros ?; cbv beta; triple_fact ].

(** ** What the form stores *)

(** The item mapping the form builds for one category. *)
Definition entered (u : st.user) (category select : string)
    (label key : string -> string) : dict Q :=
  comprehended
    (st.chooses u select (keys (get EMISSION_FACTORS category [])))
    (fun item => st.enters u (label item) (key item)) [].

(** The quantities stored when the user asks for the calculation. *)
Definition entered_data (u : st.user) : quantities :=
  [ ("livestock",
      entered u "livestock" "Select Livestock Types"
        (fun animal => animal +:+ " Quantity (heads)")
        (fun animal => "livestock_" +:+ animal));
    ("crops",
      entered u "crops" "Select Crop Types"
        (fun crop => crop +:+ " Quantity (ha)")
        (fun crop => "crops_" +:+ crop));
    ("fertilizer",
      entered u "fertilizer" "Select Fertilizer Types"
        (fun fertilizer => fertilizer +:+ " Quantity (kg)")
        (fun fertilizer => "fertilizer_" +:+ fertilizer));
    ("fuel",
      entered u "fuel" "Select Fuel Types"
        (fun fuel => fuel +:+ " Quantity (liters/m³)")
        (fun fuel => "fuel_" +:+ fuel));
    ("electricity",
      entered u "electricity" "Select Electricity Sources"
        (fun source => source +:+ " Quantity (kWh)")
        (fun source => "electricity_" +:+ source)) ].

Lemma triple_ask_quantities P u into category select label key table X :
  dict_find EMISSION_FACTORS category = Some table ->
  triple P (ask_quantities u into category select label key)
    (fun d s => P s /\ d = entered u category select label key) X.
Proof.
  intros Ht. unfold ask_quantities, entered, get. rewrite Ht.
  eapply triple_bind.
  { apply (triple_call _ _ table). unfold getitem. now rewrite Ht. }
  intros t. cbv beta. triple_fact. triple_step.
  apply triple_comprehension. intros item. apply triple_number_input.
Qed.

Lemma show_input_runs (u : st.user) (s0 : st.session_state) :
  triple (fun s => s = s0) (show_input u)
    (fun _ s => s = s0 /\ st.presses u "Calculate Emissions" = false)
    (fun s =>
       s = {| st.page := Some "Result"; st.data := Some (entered_data u) |} /\
       st.presses u "Calculate Emissions" = true).
Proof.
  unfold show_input.
  do 3 triple_step.
  eapply triple_bind; [eapply triple_ask_quantities; reflexivity|].
  intros ?; cbv beta; triple_fact. triple_step.
  eapply triple_bind; [eapply triple_ask_quantities; reflexivity|].
  intros ?; cbv beta; triple_fact. triple_step.
  eapply triple_bind; [eapply triple_ask_quantities; reflexivity|].
  intros ?; cbv beta; triple_fact. triple_step.
  eapply triple_bind; [eapply triple_ask_quantities; reflexivity|].
  intros ?; cbv beta; triple_fact. triple_step.
  eapply triple_bind; [eapply triple_ask_quantities; reflexivity|].
  intros ?; cbv beta; triple_fact. triple_step.
  destruct (st.presses u "Calculate Emissions") eqn:Hpressed.
  - do 2 triple_step. apply triple_rerun. intros s ->. split; reflexivity.
  - apply triple_ret. intros s ->. split; reflexivity.
Qed.

Lemma keys_assign {V : Type} (d : dict V) key v k :
  In k (keys (assign d key v)) -> In k (keys d) \/ k = key.
Proof.
  induction d as [|[k' w] d IH]; simpl.
  - intros [<-|[]]. now right.
  - destruct (String.eqb k' key); simpl.
    + intros [<-|Hin]; [left; now left | left; now right].
    + intros [<-|Hin]; [left; now left|].
      destruct (IH Hin) as [?|?]; [left; now right | now right].
Qed.

Lemma keys_comprehended ks f acc k :
  In k (keys (comprehended ks f acc)) -> In k (keys acc) \/ In k ks.
Proof.
  unfold comprehended. revert acc.
  induction ks as [|key rest IH]; intros acc; simpl; [now left|].
  intros Hin. destruct (IH _ Hin) as [Hacc|Hrest]; [|right; now right].
  destruct (keys_assign _ _ _ _ Hacc) as [? | ->]; [now left | right; now left].
Qed.

(** Widgets that keep the contract of the library: a multiselect returns
    some of its options, and a radio, given a position among its options,
    returns one of them. *)
Definition well_behaved (u : st.user) : Prop :=
  (forall label options item,
     In item (st.chooses u label options) -> In item options) /\
  (forall label options index,
     (index < length options)%nat ->
     In (st.picks u label options index) options).

Lemma entered_known u category select label key :
  well_behaved u ->
  known_items (get EMISSION_FACTORS category [])
    (entered u category select label key) = true.
Proof.
  intros [Hchoose _]. unfold known_items. apply forallb_forall.
  intros item Hin. unfold entered in Hin.
  apply keys_comprehended in Hin as [[]|Hin].
  apply Hchoose in Hin. unfold contains.
  destruct (dict_find (get EMISSION_FACTORS category []) item) eqn:Hf;
    [reflexivity|].
  apply dict_find_None in Hf. contradiction.
Qed.

(** Inputs on which every operation of the results page returns. *)
Definition ready (data : quantities) : Prop :=
  comparable data = true /\ known_categories data.

Lemma entered_data_known u : known_categories (entered_data u).
Proof.
  intros category items Hin _. unfold entered_data in Hin. simpl in Hin.
  simpl. intuition congruence.
Qed.

Lemma entered_data_ready u : well_behaved u -> ready (entered_data u).
Proof.
  intros Hu. split; [|apply entered_data_known].
  unfold comparable, chartable, entered_data. simpl.
  rewrite !entered_known by exact Hu. reflexivity.
Qed.

Lemma predict_future_emissions_returns data :
  known_categories data ->
  (forall category, In category categories -> In category (keys data)) ->
  exists p, predict_future_emissions data = Ok p.
Proof.
  intros Hk Hall.
  destruct (predict_future_emissions_cases data (totals_of data))
    as [(p & Hp & _)|(key & Hin & Hnot & _)].
  - now apply calculate_total_emissions_known.
  - now exists p.
  - exfalso. apply Hnot, Hall, Hin.
Qed.

Lemma comparable_keys data category :
  comparable data = true -> In category categories ->
  In category (keys data).
Proof.
  unfold comparable. rewrite forallb_forall. intros Hc Hin.
  specialize (Hc _ Hin). unfold chartable in Hc.
  destruct (dict_find data category) eqn:Hf; [|discriminate].
  now apply dict_find_Some_keys in Hf.
Qed.

(** X10: the form stores a dictionary with exactly the five categories, in
    the order of the table, and goes to the results page; whatever the
    widgets return, neither the totals nor the projection raise on what it
    stores.  Without the button, the session is left as it is. *)
Theorem show_input_stores (u : st.user) (r : st.run) :
  keys (entered_data u) = categories /\
  (exists emissions, calculate_total_emissions (entered_data u) = Ok emissions) /\
  (exists p, predict_future_emissions (entered_data u) = Ok p) /\
  match show_input u r with
  | (outcome, r') =>
      if st.presses u "Calculate Emissions"
      then outcome = st.Stop st.RerunException /\
           st.session r'
           = {| st.page := Some "Result"; st.data := Some (entered_data u) |}
      else outcome = st.Return tt /\ st.session r' = st.session r
  end.
Proof.
  split; [reflexivity|]. split.
  { eexists. apply calculate_total_emissions_known, entered_data_known. }
  split.
  { apply predict_future_emissions_returns; [apply entered_data_known|].
    intros category Hin. exact Hin. }
  pose proof (show_input_runs u (st.session r) r eq_refl) as Hrun.
  destruct (show_input u r) as [[[]|[]] r']; try contradiction;
    destruct Hrun as [_ [Hs ->]]; auto.
Qed.

(** ** The pages never fail *)

Definition pages : list string := ["Home"; "Enter your Data"; "Result"].

(** Sessions the script can leave behind. *)
Definition sound (s : st.session_state) : Prop :=
  (forall p, st.page s = Some p -> In p pages) /\
  (forall d, st.data s = Some d -> ready d).

Lemma show_introduction_runs (u : st.user) (s0 : st.session_state) :
  triple (fun s => s = s0) (show_introduction u)
    (fun _ s => s = s0 /\ st.presses u "Enter your Data" = false)
    (fun s =>
       s = {| st.page := Some "Enter your Data"; st.data := st.data s0 |} /\
       st.presses u "Enter your Data" = true).
Proof.
  unfold show_introduction, st.title, st.image, st.write.
  do 4 triple_step.
  destruct (st.presses u "Enter your Data").
  - triple_step. apply triple_rerun. now intros s ->.
  - apply triple_ret. now intros s ->.
Qed.

Lemma show_results_runs (u : st.user) (s0 : st.session_state) X :
  (forall d, st.data s0 = Some d -> ready d) ->
  triple (fun s => s = s0) (show_results u) (fun _ s => s = s0) X.
Proof.
  intros Hready. unfold show_results, st.title, st.write, st.plotly_chart,
    st.columns, st.error.
  do 2 triple_step.
  destruct (st.data s0) as [d|] eqn:Hd.
  2:{ rewrite bool_decide_eq_false_2 by (intros [? ?]; discriminate).
      apply triple_show. discriminate. }
  destruct (Hready d eq_refl) as [Hc Hk].
  rewrite bool_decide_eq_true_2 by eauto.
  triple_step.
  eapply triple_bind.
  { apply triple_call_returns. eexists.
    now apply calculate_total_emissions_known. }
  intros total_emissions. cbv beta.
  eapply triple_bind.
  { apply triple_call_returns.
    apply predict_future_emissions_returns; [exact Hk|].
    intros category. now apply comparable_keys. }
  intros predicted_emissions. cbv beta.
  do 4 triple_step.
  eapply triple_bind.
  { apply triple_call_returns. unfold plot_comparison_figure,
      plot_comparison_chart, get_emission_factors.
    rewrite comparison_loop_known by (auto || exact Hc).
    eexists. reflexivity. }
  intros fig. cbv beta. do 2 triple_step.
  eapply triple_bind.
  { apply triple_call_returns. eexists. reflexivity. }
  intros fig'. cbv beta. do 2 triple_step.
  apply triple_for_each. intros rec. apply triple_show. discriminate.
Qed.

(** ** The navigation between the pages *)

(** The position the radio starts from: that of the page of the
    session. *)
Definition page_index (p : string) : nat :=
  match index_of p pages with
  | Some i => i
  | None => 0%nat
  end.

(** The session a run of the script leaves behind, as a function of the
    session it starts from and of what the widgets return: the page is the
    one the radio returns, unless the button of that page is pressed, which
    leads to the next page; the data change only when the form is
    submitted. *)
Definition transition (u : st.user) (s : st.session_state)
    : st.session_state :=
  let current := match st.page s with Some p => p | None => "Home" end in
  let page := st.picks u EmptyString pages (page_index current) in
  if String.eqb page "Home" then
    if st.presses u "Enter your Data"
    then {| st.page := Some "Enter your Data"; st.data := st.data s |}
    else {| st.page := Some page; st.data := st.data s |}
  else if String.eqb page "Enter your Data" then
    if st.presses u "Calculate Emissions"
    then {| st.page := Some "Result"; st.data := Some (entered_data u) |}
    else {| st.page := Some page; st.data := st.data s |}
  else {| st.page := Some page; st.data := st.data s |}.

Lemma page_index_lt p : (page_index p < length pages)%nat.
Proof.
  unfold page_index, pages. cbn [index_of length].
  repeat (destruct (String.eqb _ p); cbn [option_map]; try lia).
Qed.

Lemma page_index_of p :
  In p pages -> index_of p pages = Some (page_index p).
Proof.
  intros Hin. unfold page_index.
  destruct (index_of_In p pages Hin) as (i & -> & _). reflexivity.
Qed.

Lemma show_navigation_bar_runs (u : st.user) (s0 : st.session_state) p X :
  st.page s0 = Some p ->
  In p pages ->
  triple (fun s => s = s0) (show_navigation_bar u)
    (fun _ s =>
       s = {| st.page := Some (st.picks u EmptyString pages (page_index p));
              st.data := st.data s0 |})
    X.
Proof.
  intros Hp Hin.
  unfold show_navigation_bar, st.title, st.image, st.write.
  do 3 triple_step.
  rewrite Hp, bool_decide_eq_true_2 by eauto.
  eapply triple_bind.
  { triple_step. apply triple_list_index_at. now apply page_index_of. }
  intros index. cbv beta. triple_fact.
  do 5 triple_step.
  apply triple_show_last; [discriminate|].
  intros s ->. reflexivity.
Qed.

Lemma main_runs (u : st.user) (s0 : st.session_state) :
  well_behaved u ->
  sound s0 ->
  triple (fun s => s = s0) (main u)
    (fun _ s => s = transition u s0)
    (fun s => s = transition u s0).
Proof.
  intros Hu [Hpage Hdata]. unfold main, st.set_page_config.
  do 2 triple_step.
  set (current := match st.page s0 with Some p => p | None => "Home" end).
  assert (Hcurrent : In current pages).
  { subst current. destruct (st.page s0) as [p|]; [now apply Hpage|].
    simpl. auto. }
  eapply triple_bind
    with (Q := fun _ s =>
                 s = {| st.page := Some current; st.data := st.data s0 |}).
  { subst current. destruct s0 as [[p|] d]; simpl.
    - apply triple_ret. now intros s ->.
    - now apply triple_set_page_last. }
  intros ?. cbv beta.
  eapply triple_bind.
  { apply (show_navigation_bar_runs u _ current); [reflexivity|exact Hcurrent]. }
  intros ?. cbv beta. cbn [st.data].
  triple_step.
  unfold transition. fold current.
  pose proof (proj2 Hu EmptyString pages (page_index current)
                (page_index_lt current)) as Hpicked.
  destruct Hpicked as [<-|[<-|[<-|[]]]]; simpl.
  - eapply triple_weaken; [| | |apply show_introduction_runs].
    + intros s Hs. exact Hs.
    + intros ? s [-> ->]. reflexivity.
    + intros s [-> ->]. reflexivity.
  - eapply triple_weaken; [| | |apply show_input_runs].
    + intros s Hs. exact Hs.
    + intros ? s [-> ->]. reflexivity.
    + intros s [-> ->]. reflexivity.
  - eapply triple_weaken; [| | |apply show_results_runs].
    + intros s Hs. exact Hs.
    + intros ? s ->. reflexivity.
    + intros s Hs. exact Hs.
    + exact Hdata.
Qed.

Lemma transition_sound u s :
  well_behaved u -> sound s ->
  sound (transition u s) /\ is_Some (st.page (transition u s)).
Proof.
  intros Hu [Hpage Hdata].
  set (current := match st.page s with Some p => p | None => "Home" end).
  pose proof (proj2 Hu EmptyString pages (page_index current)
                (page_index_lt current)) as Hpicked.
  assert (Hkeep : forall q, In q pages ->
            sound {| st.page := Some q; st.data := st.data s |}).
  { intros q Hq. split; simpl; [now intros ? [= <-] | exact Hdata]. }
  unfold transition. fold current.
  destruct Hpicked as [<-|[<-|[<-|[]]]]; simpl.
  - destruct (st.presses u "Enter your Data");
      (split; [apply Hkeep; simpl; auto | now eexists]).
  - destruct (st.presses u "Calculate Emissions").
    + split; [|now eexists]. split; simpl.
      * intros ? [= <-]. simpl. auto.
      * intros ? [= <-]. now apply entered_data_ready.
    + split; [apply Hkeep; simpl; auto | now eexists].
  - split; [apply Hkeep; simpl; auto | now eexists].
Qed.

(** The sessions reached from the empty one by runs of the script with
    well-behaved widgets; each run starts with an empty display. *)
Inductive reachable : st.session_state -> Prop :=
  | reachable_start : reachable {| st.page := None; st.data := None |}
  | reachable_run u s :
      reachable s -> well_behaved u ->
      reachable
        (st.session (snd (main u {| st.session := s; st.shown := [] |}))).

Lemma known_page_nil : known_page [].
Proof. intros into []. Qed.

Lemma main_session u s shown :
  well_behaved u -> sound s ->
  match main u {| st.session := s; st.shown := shown |} with
  | (outcome, r') =>
      (outcome = st.Return tt \/ outcome = st.Stop st.RerunException) /\
      st.session r' = transition u s /\
      (known_page shown -> known_page (st.shown r'))
  end.
Proof.
  intros Hu Hs.
  pose proof (main_runs u s Hu Hs {| st.session := s; st.shown := shown |}
                eq_refl) as Hrun.
  destruct (main u _) as [[[]|[]] r']; try contradiction;
    destruct Hrun as [Hshown Hsession]; auto.
Qed.

Lemma reachable_sound s : reachable s -> sound s.
Proof.
  induction 1 as [|u s _ IH Hu].
  - split; simpl; discriminate.
  - pose proof (main_session u s [] Hu IH) as Hrun.
    destruct (main u _) as [outcome r']. simpl.
    destruct Hrun as (_ & -> & _). now apply transition_sound.
Qed.

(** X11: with widgets that keep their contract, no run of the script ends
    in an exception: it reaches the end of the script or [st.rerun()].  The
    page of the session is then one of the three pages, the data stored,
    if any, are data on which every operation of the results page returns,
    and the message for an unknown page is not displayed. *)
Theorem main_never_fails (u : st.user) (s : st.session_state) :
  reachable s ->
  well_behaved u ->
  match main u {| st.session := s; st.shown := [] |} with
  | (outcome, r') =>
      (outcome = st.Return tt \/ outcome = st.Stop st.RerunException) /\
      sound (st.session r') /\
      is_Some (st.page (st.session r')) /\
      known_page (st.shown r')
  end.
Proof.
  intros Hs Hu. apply reachable_sound in Hs.
  pose proof (main_session u s [] Hu Hs) as Hrun.
  destruct (main u _) as [outcome r'].
  destruct Hrun as (Hout & Hsession & Hshown).
  destruct (transition_sound u s Hu Hs) as [Hsound Hpage].
  rewrite Hsession. split; [exact Hout|]. split; [exact Hsound|].
  split; [exact Hpage|]. apply Hshown, known_page_nil.
Qed.

(** X14: the script is a state machine on the session.  From a session
    whose page, if any, is one of the three pages, and with widgets that
    keep their contract, the session after a run is [transition] of the
    session before: the page becomes the one the radio returns, the button
    of the home page leads to the form, the button of the form stores what
    was entered and leads to the results, and nothing else changes the
    data. *)
Theorem main_transition (u : st.user) (s : st.session_state)
    (shown : list (st.place * st.element)) :
  well_behaved u ->
  sound s ->
  st.session (snd (main u {| st.session := s; st.shown := shown |}))
  = transition u s.
Proof.
  intros Hu Hs. pose proof (main_session u s shown Hu Hs) as Hrun.
  destruct (main u _) as [outcome r']. simpl. apply Hrun.
Qed.

(** A visitor who selects wheat and rice, enters 10 for each quantity,
    presses every button, and leaves the radio where it is. *)
Definition visitor : st.user :=
  {| st.chooses :=
       fun _ options =>
         List.filter (fun o => String.eqb o "Wheat" || String.eqb o "Rice")
           options;
     st.enters := fun _ _ => 10;
     st.presses := fun _ => true;
     st.picks := fun _ options index => nth index options EmptyString |}.

Lemma visitor_well_behaved : well_behaved visitor.
Proof.
  split; simpl.
  - intros _ options item Hin. apply filter_In in Hin. tauto.
  - intros _ options index Hindex. now apply nth_In.
Qed.

Lemma main_never_fails_witness :
  match main visitor
          {| st.session := {| st.page := None; st.data := None |};
             st.shown := [] |} with
  | (outcome, r') =>
      (outcome = st.Return tt \/ outcome = st.Stop st.RerunException) /\
      sound (st.session r') /\
      is_Some (st.page (st.session r')) /\
      known_page (st.shown r')
  end.
Proof.
  apply (main_never_fails visitor {| st.page := None; st.data := None |}).
  - apply reachable_start.
  - apply visitor_well_behaved.
Defined.

Lemma main_transition_witness :
  st.session
    (snd (main visitor
            {| st.session := {| st.page := Some "Enter your Data";
                                st.data := None |};
               st.shown := [] |}))
  = transition visitor {| st.page := Some "Enter your Data"; st.data := None |}.
Proof.
  apply (main_transition visitor
           {| st.page := Some "Enter your Data"; st.data := None |} []).
  - apply visitor_well_behaved.
  - split; simpl; [|discriminate]. intros p [= <-]. simpl. auto.
Defined.

(** The visitor goes from the home page to the form, and from the form,
    with wheat and rice entered, to the results. *)
Example visitor_transitions :
  transition visitor {| st.page := None; st.data := None |}
  = {| st.page := Some "Enter your Data"; st.data := None |} /\
  transition visitor {| st.page := Some "Enter your Data"; st.data := None |}
  = {| st.page := Some "Result";
       st.data :=
         Some [ ("livestock", []);
                ("crops", [("Wheat", 10); ("Rice", 10)]);
                ("fertilizer", []); ("fuel", []); ("electricity", []) ] |}.
Proof. split; reflexivity. Qed.

(** * The store-level recommendations compute the value-level ones

    [generate_recommendations] creates one list and appends to it in
    place.  On any store that holds the quantity input, the list it
    returns is new, and holds the lines the value-level function
    returns. *)

Definition lines_obj (lines : list string) : Heap.obj :=
  Heap.OList (map Heap.VStr lines).

Lemma append_last h lines line :
  Heap.append (length h) (Heap.VStr line) (h ++ [lines_obj lines])
  = (Ok tt, h ++ [lines_obj (lines ++ [line])]).
Proof.
  unfold Heap.append, Heap.load_list, Heap.load, Heap.mbind, Heap.store.
  rewrite list_lookup_middle by reflexivity. simpl.
  rewrite insert_app_r_alt by reflexivity.
  rewrite Nat.sub_diag. simpl. unfold lines_obj.
  now rewrite map_app.
Qed.

Lemma recommend_items_store h line items lines :
  Heap.for_each (map (fun iq => (fst iq, Heap.VNum (snd iq))) items)
    (fun iq =>
       Heap.mbind (Heap.as_num (snd iq))
         (fun quantity =>
            if positive quantity
            then Heap.append (length h) (Heap.VStr (line (fst iq)))
            else Heap.ret tt))
    (h ++ [lines_obj lines])
  = (Ok tt, h ++ [lines_obj (recommend_items line items lines)]).
Proof.
  revert lines.
  induction items as [|[item quantity] items IH]; intros lines;
    [reflexivity|].
  cbn [map Heap.for_each recommend_items fst snd].
  unfold Heap.mbind at 1. unfold Heap.mbind at 1. cbn [Heap.as_num Heap.ret].
  destruct (positive quantity).
  - rewrite append_last. apply IH.
  - apply IH.
Qed.

Lemma recommend_store h data d category header line lines :
  holds_nested h data d ->
  Heap.recommend data category header line (length h)
    (h ++ [lines_obj lines])
  = (Ok tt, h ++ [lines_obj (recommend d category header line lines)]).
Proof.
  intros (entries & Hdata & Hall).
  assert (Hlook : (h ++ [lines_obj lines]) !! data
                  = Some (Heap.ODict entries)).
  { rewrite lookup_app_l; [exact Hdata|]. eapply lookup_lt_Some, Hdata. }
  pose proof (holds_find h entries d category Hall) as Hfind.
  unfold Heap.recommend, recommend.
  unfold Heap.load_dict at 1, Heap.load at 1.
  unfold Heap.mbind at 1. unfold Heap.mbind at 1.
  rewrite Hlook. cbn [Heap.ret]. unfold contains.
  destruct (dict_find d category) as [items|].
  2:{ rewrite Hfind. reflexivity. }
  destruct Hfind as (a & Hentry & Ha). rewrite Hentry.
  assert (Hitems : (h ++ [lines_obj lines]) !! a
                   = Some (HeapFacts.items_obj items)).
  { rewrite lookup_app_l; [exact Ha|]. eapply lookup_lt_Some, Ha. }
  unfold Heap.subscript at 1, Heap.load_dict at 1, Heap.load at 1,
    Heap.lift, getitem.
  unfold Heap.mbind at 1. unfold Heap.mbind at 1. unfold Heap.mbind at 1.
  rewrite Hlook. cbn [Heap.ret]. rewrite Hentry.
  unfold Heap.mbind at 1. cbn [Heap.as_ref Heap.ret].
  unfold Heap.load_dict at 1, Heap.load at 1.
  unfold Heap.mbind at 1. unfold Heap.mbind at 1.
  rewrite Hitems. unfold HeapFacts.items_obj at 1. cbn [Heap.ret].
  destruct items as [|iq items]; [reflexivity|].
  cbn [map]. unfold Heap.mbind at 1. rewrite append_last.
  assert (Hlook' : (h ++ [lines_obj (lines ++ [header])]) !! data
                   = Some (Heap.ODict entries)).
  { rewrite lookup_app_l; [exact Hdata|]. eapply lookup_lt_Some, Hdata. }
  assert (Hitems' : (h ++ [lines_obj (lines ++ [header])]) !! a
                    = Some (HeapFacts.items_obj (iq :: items))).
  { rewrite lookup_app_l; [exact Ha|]. eapply lookup_lt_Some, Ha. }
  unfold Heap.subscript, Heap.load_dict, Heap.load, Heap.lift, getitem.
  unfold Heap.mbind at 1. unfold Heap.mbind at 1. unfold Heap.mbind at 1.
  rewrite Hlook'. cbn [Heap.ret]. rewrite Hentry.
  unfold Heap.mbind at 1. cbn [Heap.as_ref Heap.ret].
  unfold Heap.mbind at 1. unfold Heap.mbind at 1.
  rewrite Hitems'. unfold HeapFacts.items_obj. cbn [Heap.ret].
  apply (recommend_items_store h line (iq :: items)).
Qed.

(** X12: the store-level function allocates one list, appends to it in place
    and returns its address; the list holds the value-level
    recommendations, and no other object of the store changes. *)
Theorem generate_recommendations_store (h : Heap.heap) (data : Heap.loc)
    (d : quantities) :
  holds_nested h data d ->
  Heap.generate_recommendations data h
  = (Ok (length h), h ++ [lines_obj (generate_recommendations d)]).
Proof.
  intros Hd. unfold Heap.generate_recommendations, generate_recommendations.
  unfold Heap.alloc. unfold Heap.mbind at 1.
  change (Heap.OList []) with (lines_obj []).
  repeat (unfold Heap.mbind at 1; rewrite (recommend_store h data d) by exact Hd).
  reflexivity.
Qed.

Lemma generate_recommendations_store_witness :
  Heap.generate_recommendations 11
    (snd (HeapFacts.initial wheat_urea_input))
  = (Ok (length (snd (HeapFacts.initial wheat_urea_input))),
     snd (HeapFacts.initial wheat_urea_input)
     ++ [lines_obj (generate_recommendations wheat_urea_input)]).
Proof.
  apply (generate_recommendations_store
           (snd (HeapFacts.initial wheat_urea_input)) 11%nat
           wheat_urea_input).
  eexists. split; [reflexivity|].
  repeat (constructor;
          [split; [reflexivity|]; eexists; split; reflexivity|]).
  constructor.
Defined.

(** * The store-level projection computes the value-level one

    [predict_future_emissions] builds its two lists by appending to them
    in place.  On any store that holds the factor table and the quantity
    input, it leaves the objects of the store as they are and adds five:
    the totals, the list of years, the two series and the dictionary it
    returns, which refers to the two series. *)

Lemma append_growth_at h l x after :
  Heap.append_growth (length h) (h ++ list_obj (l ++ [x]) :: after)
  = (Ok tt, h ++ list_obj ((l ++ [x]) ++ [x * 1.05]) :: after).
Proof.
  unfold Heap.append_growth, Heap.last_item, Heap.load_list, Heap.load.
  unfold Heap.mbind at 1. unfold Heap.mbind at 1. unfold Heap.mbind at 1.
  rewrite list_lookup_middle by reflexivity.
  unfold list_obj at 1. cbn [Heap.ret]. rewrite map_app. cbn [map].
  rewrite last_snoc. cbn [Heap.ret]. unfold Heap.mbind at 1. cbn [Heap.as_num Heap.ret].
  unfold Heap.append, Heap.load_list, Heap.load, Heap.store, Heap.mbind.
  rewrite list_lookup_middle by reflexivity. unfold list_obj.
  cbn [Heap.ret].
  rewrite insert_app_r_alt by reflexivity. rewrite Nat.sub_diag.
  rewrite (map_app _ (l ++ [x])). reflexivity.
Qed.

Lemma growth_loop n h tl t rl r after :
  Heap.repeat_m n
    (Heap.mbind (Heap.append_growth (length h))
       (fun _ => Heap.append_growth (S (length h))))
    (h ++ list_obj (tl ++ [t]) :: list_obj (rl ++ [r]) :: after)
  = (Ok tt,
     h ++ list_obj (compound n tl t) :: list_obj (compound n rl r) :: after).
Proof.
  revert tl t rl r.
  induction n as [|n IH]; intros tl t rl r; [reflexivity|].
  cbn [Heap.repeat_m compound]. unfold Heap.mbind at 1.
  unfold Heap.mbind at 1. rewrite append_growth_at.
  pose proof (append_growth_at (h ++ [list_obj ((tl ++ [t]) ++ [t * 1.05])])
                rl r after) as Hr.
  rewrite length_app in Hr. cbn [length] in Hr.
  rewrite Nat.add_1_r, <- app_assoc in Hr. cbn [app] in Hr.
  rewrite Hr, <- app_assoc. apply IH.
Qed.

(** A subscript of the dictionary of totals. *)
Lemma subscript_num_totals h l emissions key :
  h !! l = Some (HeapFacts.items_obj emissions) ->
  Heap.subscript_num l key h
  = (getitem emissions key, h).
Proof.
  intros Hl. unfold Heap.subscript_num, Heap.subscript, Heap.load_dict,
    Heap.load, Heap.lift, Heap.mbind, getitem.
  rewrite Hl. unfold HeapFacts.items_obj. cbn [Heap.ret].
  rewrite dict_find_items_obj.
  destruct (dict_find emissions key); reflexivity.
Qed.

Definition years_obj : Heap.obj :=
  Heap.OList (map (fun y => Heap.VNum (inject_Z (Z.of_nat y))) (seq 2024 10)).

(** The objects the projection adds to the store. *)
Definition projection_objs (base : nat) (emissions : dict Q) (p : projection)
    : list Heap.obj :=
  [ HeapFacts.items_obj emissions;
    years_obj;
    list_obj (traditional p);
    list_obj (reduced p);
    Heap.ODict [ ("traditional", Heap.VRef (base + 2));
                 ("reduced", Heap.VRef (base + 3)) ] ].

Lemma calculate_total_emissions_returns_store h g d data emissions :
  holds_nested h g EMISSION_FACTORS ->
  holds_nested h d data ->
  NoDup (keys data) ->
  calculate_total_emissions data = Ok emissions ->
  Heap.calculate_total_emissions g d h
  = (Ok (length h), h ++ [HeapFacts.items_obj emissions]).
Proof.
  intros Hg (entries & Hd & Hall) Hdup He.
  pose proof (total_emissions_store h g EMISSION_FACTORS entries data Hg
                Hall [] Hdup) as Hloop.
  unfold calculate_total_emissions, get_emission_factors in He.
  rewrite He in Hloop.
  unfold Heap.calculate_total_emissions, Heap.get_emission_factors,
    Heap.load_dict, Heap.load, Heap.alloc, Heap.mbind, Heap.ret.
  rewrite Hd.
  change (Heap.ODict []) with (HeapFacts.items_obj []).
  rewrite Hloop. reflexivity.
Qed.

(** X13: whenever the value-level projection returns [p], the store-level
    function leaves the objects of the store as they are and adds five: the
    totals, the years, the two series of [p] as two distinct lists that it
    filled by appending in place, and the dictionary it returns, whose
    entries refer to these two lists. *)
Theorem predict_future_emissions_store (h : Heap.heap) (g data : Heap.loc)
    (d : quantities) (p : projection) :
  holds_nested h g EMISSION_FACTORS ->
  holds_nested h data d ->
  NoDup (keys d) ->
  predict_future_emissions d = Ok p ->
  exists emissions,
    calculate_total_emissions d = Ok emissions /\
    Heap.predict_future_emissions g data h
    = (Ok (length h + 4)%nat,
       h ++ projection_objs (length h) emissions p).
Proof.
  intros Hg Hd Hdup Hp. unfold predict_future_emissions in Hp.
  destruct (calculate_total_emissions d) as [emissions|] eqn:He;
    [|discriminate].
  exists emissions. split; [reflexivity|]. cbn [bind] in Hp.
  destruct (base_total emissions) as [base|] eqn:Hb; [|discriminate].
  cbn [bind] in Hp. rewrite project_compound in Hp.
  assert (Ht : traditional p = compound 9 [] base) by now inversion Hp.
  assert (Hr : reduced p = compound 9 [] (base * 0.8)) by now inversion Hp.
  clear Hp. unfold projection_objs. rewrite Ht, Hr. clear Ht Hr.
  unfold Heap.predict_future_emissions, Heap.get_emission_factors.
  unfold Heap.mbind at 1. cbn [Heap.ret]. unfold Heap.mbind at 1.
  rewrite (calculate_total_emissions_returns_store h g data d emissions)
    by assumption.
  unfold Heap.mbind at 1. unfold Heap.alloc at 1.
  fold years_obj.
  assert (Hlook : ((h ++ [HeapFacts.items_obj emissions]) ++ [years_obj])
                    !! length h = Some (HeapFacts.items_obj emissions)).
  { rewrite <- app_assoc. now apply list_lookup_middle. }
  unfold base_total in Hb.
  destruct (getitem emissions "livestock") as [livestock|] eqn:E1;
    [|discriminate].
  cbn [bind] in Hb.
  destruct (getitem emissions "crops") as [crops|] eqn:E2; [|discriminate].
  cbn [bind] in Hb.
  destruct (getitem emissions "fertilizer") as [fertilizer|] eqn:E3;
    [|discriminate].
  cbn [bind] in Hb.
  destruct (getitem emissions "fuel") as [fuel|] eqn:E4; [|discriminate].
  cbn [bind] in Hb.
  destruct (getitem emissions "electricity") as [electricity|] eqn:E5;
    [|discriminate].
  cbn [bind] in Hb. injection Hb as Hb.
  do 5 (unfold Heap.mbind at 1;
        rewrite (subscript_num_totals _ _ emissions) by exact Hlook).
  rewrite E1, E2, E3, E4, E5, Hb.
  unfold Heap.mbind at 1. unfold Heap.alloc at 1.
  unfold Heap.mbind at 1. unfold Heap.load_list at 1, Heap.load at 1.
  unfold Heap.mbind at 1.
  rewrite list_lookup_middle by reflexivity. cbn [Heap.ret].
  unfold Heap.mbind at 1.
  cbn [Heap.fold_m Heap.mbind Heap.as_num Heap.ret app].
  unfold Heap.mbind at 1. unfold Heap.alloc at 1.
  clear Hlook.
  remember (h ++ [HeapFacts.items_obj emissions]) as h1 eqn:Eh1.
  remember (h1 ++ [years_obj]) as h2 eqn:Eh2.
  assert (Hlen : length h2 = (length h + 2)%nat).
  { subst h2 h1. rewrite !length_app. simpl. lia. }
  assert (Hyears : forall rest, (h2 ++ rest) !! length h1 = Some years_obj).
  { intros rest. subst h2. rewrite <- app_assoc.
    now apply list_lookup_middle. }
  rewrite <- (app_assoc h2). cbn [app].
  unfold Heap.mbind at 1. unfold Heap.load_list at 1, Heap.load at 1.
  unfold Heap.mbind at 1. rewrite Hyears.
  change (length (seq 1 (length (map (fun y => Heap.VNum (inject_Z (Z.of_nat y)))
                                   (seq 2024 10)) - 1))) with 9%nat.
  cbn [Heap.ret years_obj].
  rewrite length_app. cbn [length]. rewrite Nat.add_1_r.
  change (h2 ++ [Heap.OList [Heap.VNum base];
                 Heap.OList [Heap.VNum (base * 0.8)]])
    with (h2 ++ list_obj ([] ++ [base])
             :: list_obj ([] ++ [base * 0.8]) :: []).
  unfold Heap.mbind at 1. rewrite growth_loop.
  unfold Heap.alloc. rewrite length_app, Hlen. cbn [length].
  subst h2 h1. rewrite <- !app_assoc. cbn [app].
  replace (S (length h + 2)) with (length h + 3)%nat by lia.
  replace (length h + 2 + 2)%nat with (length h + 4)%nat by lia.
  reflexivity.
Qed.

Lemma predict_future_emissions_store_witness :
  exists emissions,
    calculate_total_emissions wheat_urea_input = Ok emissions /\
    Heap.predict_future_emissions 5 11
      (snd (HeapFacts.initial wheat_urea_input))
    = (Ok (length (snd (HeapFacts.initial wheat_urea_input)) + 4)%nat,
       snd (HeapFacts.initial wheat_urea_input)
       ++ projection_objs (length (snd (HeapFacts.initial wheat_urea_input)))
            emissions wheat_urea_projection).
Proof.
  assert (Hentry : forall h k a items,
             h !! a = Some (HeapFacts.items_obj items) ->
             holds_entry h (k, Heap.VRef a) (k, items)).
  { intros h k a items Ha. split; [reflexivity|].
    exists a. split; [reflexivity | exact Ha]. }
  apply (predict_future_emissions_store
           (snd (HeapFacts.initial wheat_urea_input)) 5%nat 11%nat
           wheat_urea_input wheat_urea_projection).
  - eexists. split; [reflexivity|].
    repeat (constructor; [apply Hentry; reflexivity|]). constructor.
  - eexists. split; [reflexivity|].
    repeat (constructor; [apply Hentry; reflexivity|]). constructor.
  - apply NoDup_ListNoDup. unfold wheat_urea_input, keys. simpl.
    repeat (apply List.NoDup_cons; [simpl; intuition discriminate|]).
    apply List.NoDup_nil.
  - reflexivity.
Defined.

(** ** What the results page displays *)

(** The run [r] with the elements [es] displayed after those of [r]. *)
Definition emit (es : list (st.place * st.element)) (r : st.run) : st.run :=
  {| st.session := st.session r; st.shown := st.shown r ++ es |}.

Lemma emit_nil r : emit [] r = r.
Proof. destruct r. unfold emit. simpl. now rewrite app_nil_r. Qed.

Lemma emit_emit es es' r : emit es' (emit es r) = emit (es ++ es') r.
Proof. unfold emit. simpl. now rewrite app_assoc. Qed.

Lemma bind_show {A : Type} into e (k : unit -> st.script A) r :
  st.bind (st.show into e) k r = k tt (emit [(into, e)] r).
Proof. reflexivity. Qed.

Lemma bind_call_returns {A B : Type} (res : result A) a
    (k : A -> st.script B) r :
  res = Ok a -> st.bind (st.call res) k r = k a r.
Proof. intros ->. reflexivity. Qed.

Lemma bind_call_raises {A B : Type} (res : result A) e
    (k : A -> st.script B) r :
  res = Raise e -> st.bind (st.call res) k r = (st.Stop (st.Uncaught e), r).
Proof. intros ->. reflexivity. Qed.

Lemma bind_has_data {A : Type} (k : bool -> st.script A) r :
  st.bind st.has_data k r
  = k (bool_decide (is_Some (st.data (st.session r)))) r.
Proof. reflexivity. Qed.

Lemma bind_get_data {A : Type} (k : quantities -> st.script A) r d :
  st.data (st.session r) = Some d -> st.bind st.get_data k r = k d r.
Proof. intros Hd. unfold st.bind, st.get_data. now rewrite Hd. Qed.

Lemma for_each_write into lines r :
  for_each lines (fun rec => st.write into rec) r
  = (st.Return tt, emit (map (fun rec => (into, st.Write rec)) lines) r).
Proof.
  revert r. induction lines as [|line lines IH]; intros r.
  - simpl. now rewrite emit_nil.
  - cbn [for_each map]. unfold st.write at 1. rewrite bind_show, IH.
    now rewrite emit_emit.
Qed.

(** What is displayed up to the comparison chart. *)
Definition results_head (total_emissions : dict Q)
    : list (st.place * st.element) :=
  [ (st.body, st.Title "Results");
    (st.body, st.Columns 2);
    (st.column 1, st.Write "### Total Emissions (kg CO2e):");
    (st.column 1,
      st.PlotlyChart (plot_total_emissions_chart total_emissions) true);
    (st.column 2, st.Write "### Emissions Comparison:") ].

(** What is displayed from the comparison chart on. *)
Definition results_tail (comparison time_series : go.figure)
    (recommendations : list string) : list (st.place * st.element) :=
  [ (st.column 2, st.PlotlyChart comparison true);
    (st.body, st.Write "### Predicted Emissions Over the Next Decade:");
    (st.body, st.PlotlyChart time_series true);
    (st.body, st.Write "### Recommendations") ]
  ++ map (fun rec => (st.body, st.Write rec)) recommendations.

Lemma show_results_head u r d total_emissions p :
  st.data (st.session r) = Some d ->
  calculate_total_emissions d = Ok total_emissions ->
  predict_future_emissions d = Ok p ->
  show_results u r
  = (fig <~ st.call (plot_comparison_figure d) ;;
     _ <~ st.plotly_chart (st.column 2) fig true ;;
     _ <~ st.write st.body "### Predicted Emissions Over the Next Decade:" ;;
     fig <~ st.call (plot_time_series_chart (predicted_dict p)) ;;
     _ <~ st.plotly_chart st.body fig true ;;
     _ <~ st.write st.body "### Recommendations" ;;
     for_each (generate_recommendations d)
       (fun rec => st.write st.body rec))
      (emit (results_head total_emissions) r).
Proof.
  intros Hd Ht Hp. unfold show_results.
  unfold st.title at 1. rewrite bind_show, bind_has_data.
  change (st.session (emit _ r)) with (st.session r). rewrite Hd.
  rewrite bool_decide_eq_true_2 by eauto.
  rewrite (bind_get_data _ _ d) by exact Hd.
  rewrite (bind_call_returns _ total_emissions) by exact Ht.
  rewrite (bind_call_returns _ p) by exact Hp.
  unfold st.columns at 1. rewrite bind_show.
  unfold st.write at 1. rewrite bind_show.
  unfold st.plotly_chart at 1. rewrite bind_show.
  unfold st.write at 1. rewrite bind_show.
  rewrite !emit_emit. reflexivity.
Qed.

(** X15: when the engine returns on the data of the session, the results
    page displays, in this order, its title, the chart of the totals in the
    first column, the comparison chart in the second, the chart of the
    projection, and then one line for each recommendation, in the order
    [generate_recommendations] gives them; it leaves the session as it
    is. *)
Theorem show_results_displays (u : st.user) (r : st.run) (d : quantities)
    (total_emissions : dict Q) (p : projection) (comparison : go.figure) :
  st.data (st.session r) = Some d ->
  calculate_total_emissions d = Ok total_emissions ->
  predict_future_emissions d = Ok p ->
  plot_comparison_figure d = Ok comparison ->
  exists time_series,
    plot_time_series_chart (predicted_dict p) = Ok time_series /\
    show_results u r
    = (st.Return tt,
       emit (results_head total_emissions
             ++ results_tail comparison time_series
                  (generate_recommendations d)) r).
Proof.
  intros Hd Ht Hp Hc. eexists. split; [reflexivity|].
  rewrite (show_results_head u r d total_emissions p) by assumption.
  rewrite (bind_call_returns _ comparison) by exact Hc.
  unfold st.plotly_chart at 1. rewrite bind_show.
  unfold st.write at 1. rewrite bind_show.
  rewrite (bind_call_returns (plot_time_series_chart (predicted_dict p))
             _ _ _ eq_refl).
  unfold st.plotly_chart at 1. rewrite bind_show.
  unfold st.write at 1. rewrite bind_show.
  rewrite for_each_write, !emit_emit. reflexivity.
Qed.

(** X16: when the totals and the projection are computed but the
    comparison raises, the run stops with that exception after the
    chart of the totals and the heading of the comparison have been
    displayed: neither the comparison, nor the projection, nor any
    recommendation is shown. *)
Theorem show_results_stops (u : st.user) (r : st.run) (d : quantities)
    (total_emissions : dict Q) (p : projection) (e : exn) :
  st.data (st.session r) = Some d ->
  calculate_total_emissions d = Ok total_emissions ->
  predict_future_emissions d = Ok p ->
  plot_comparison_chart d = Raise e ->
  show_results u r
  = (st.Stop (st.Uncaught e), emit (results_head total_emissions) r).
Proof.
  intros Hd Ht Hp Hc.
  rewrite (show_results_head u r d total_emissions p) by assumption.
  apply bind_call_raises. unfold plot_comparison_figure. now rewrite Hc.
Qed.

(** A run of the results page on the quantities of the worked example. *)
Definition wheat_urea_results : st.run :=
  {| st.session := {| st.page := Some "Result";
                      st.data := Some wheat_urea_input |};
     st.shown := [] |}.

Lemma show_results_displays_witness :
  exists time_series,
    plot_time_series_chart (predicted_dict wheat_urea_projection)
    = Ok time_series /\
    show_results visitor wheat_urea_results
    = (st.Return tt,
       emit (results_head (totals_of wheat_urea_input)
             ++ results_tail
                  (comparison_figure
                     {| labels := ["Wheat"; "Urea"];
                        traditional_values := [10 * 0.69; 5 * 1.87];
                        reduced_values :=
                          [10 * 0.69 * 0.8; 5 * 1.87 * 0.8] |})
                  time_series
                  (generate_recommendations wheat_urea_input))
         wheat_urea_results).
Proof.
  apply (show_results_displays visitor wheat_urea_results wheat_urea_input);
    reflexivity.
Defined.

(** A run of the results page on the input with an unknown item. *)
Lemma show_results_stops_witness :
  show_results visitor
    {| st.session := {| st.page := Some "Result";
                        st.data := Some unknown_item_input |};
       st.shown := [] |}
  = (st.Stop (st.Uncaught (KeyError "Unicorn")),
     emit (results_head (totals_of unknown_item_input))
       {| st.session := {| st.page := Some "Result";
                           st.data := Some unknown_item_input |};
          st.shown := [] |}).
Proof.
  apply (show_results_stops visitor _ unknown_item_input
           (totals_of unknown_item_input)
           {| traditional := compound 9 [] (0 + 1 * 0 + 0 + 0 + 0 + 0);
              reduced := compound 9 [] ((0 + 1 * 0 + 0 + 0 + 0 + 0) * 0.8) |});
    reflexivity.
Defined.

(** * The totals in Python's arithmetic

    [calculate_emissions] multiplies what it is given: the quantities are
    Python [int]s or [float]s, the factors of the table are [float]
    literals, and the fallback of [.get(item, 0)] and the start of [sum]
    are the [int] [0].  A [float] is a binary64 number, and its operations
    round to the nearest one; an [int] has any size, and is converted
    before it meets a [float]. *)

Module Binary64.

Import PrimFloat SpecFloat FloatOps.

#[local] Set Warnings "-inexact-float".

Inductive number : Type :=
  | Int (n : Z)
  | Float (x : float).

(** [float(n)]: the [float] nearest to [n], ties to even; an [int] out of
    the range of [float] raises. *)
Definition float_of_int (n : Z) : result float :=
  let x := SF2Prim (binary_normalize prec emax n 0 false) in
  if is_infinity x then Raise OverflowError else Ok x.

(** A binary operator on numbers: exact on two [int]s; otherwise the
    [int] operand is converted and the operator of [float] applies, which
    does not raise. *)
Definition arithmetic (int_op : Z -> Z -> Z)
    (float_op : float -> float -> float) (a b : number) : result number :=
  match a, b with
  | Int m, Int n => Ok (Int (int_op m n))
  | Int m, Float y => x <- float_of_int m ;; Ok (Float (float_op x y))
  | Float x, Int n => y <- float_of_int n ;; Ok (Float (float_op x y))
  | Float x, Float y => Ok (Float (float_op x y))
  end.

(** [a * b] *)
Definition mul : number -> number -> result number :=
  arithmetic Z.mul PrimFloat.mul.

(** [a + b] *)
Definition add : number -> number -> result number :=
  arithmetic Z.add PrimFloat.add.

(** The value of a number as a rational; a NaN and the infinities have
    none. *)
Definition exact (a : number) : option Q :=
  match a with
  | Int n => Some (inject_Z n)
  | Float x =>
      match Prim2SF x with
      | S754_zero _ => Some 0
      | S754_finite s m e =>
          Some ((if s then - inject_Z (Zpos m) else inject_Z (Zpos m)) * 2 ^ e)
      | S754_infinity _ | S754_nan => None
      end
  end.

(** [a == b]: the comparison of two [float]s, and otherwise of the exact
    values. *)
Definition equals (a b : number) : bool :=
  match a, b with
  | Float x, Float y => PrimFloat.eqb x y
  | _, _ =>
      match exact a, exact b with
      | Some p, Some q => Qeq_bool p q
      | _, _ => false
      end
  end.

(** [d == e] on dictionaries: the same keys, with equal values. *)
Definition dict_equals (d e : dict number) : bool :=
  Nat.eqb (length d) (length e) &&
  forallb
    (fun kv =>
       match dict_find e (fst kv) with
       | Some w => equals (snd kv) w
       | None => false
       end)
    d.

Definition EMISSION_FACTORS : dict (dict number) :=
  [ ("livestock",
      [ ("Beef Cow", Float 99.0); ("Dairy Cow", Float 102.0);
        ("Buffalo", Float 107.0); ("Chicken", Float 6.0);
        ("Pigs", Float 21.0); ("Sheep", Float 15.0); ("Goats", Float 15.0);
        ("Camels", Float 84.0); ("Horses", Float 56.0) ]);
    ("crops",
      [ ("Wheat", Float 0.69); ("Barley", Float 0.54); ("Maize", Float 0.77);
        ("Oats", Float 0.64); ("Rye", Float 0.68); ("Rice", Float 1.50);
        ("Millet", Float 0.67); ("Sorghum", Float 0.61);
        ("Pasture", Float 0.15); ("Peas", Float 0.45); ("Beans", Float 0.62);
        ("Soybeans", Float 0.62); ("Potatoes", Float 0.43);
        ("Feedbeet", Float 0.47); ("Sugarcane", Float 0.73);
        ("Peanuts", Float 0.80) ]);
    ("fertilizer",
      [ ("Urea", Float 1.87); ("Lime", Float 0.61); ("Gypsum", Float 0.10);
        ("Animal Manure", Float 0.20); ("Organic Compost", Float 0.20);
        ("Filter Cake", Float 0.25); ("Vinasse", Float 0.10) ]);
    ("fuel",
      [ ("Diesel Oil", Float 2.68); ("Gasoline", Float 2.31);
        ("Biodiesel", Float 1.83); ("Anhydrous Ethanol", Float 1.50);
        ("Hydrated Ethanol", Float 1.44); ("Natural Gas", Float 2.75) ]);
    ("electricity",
      [ ("Solar", Float 0.05); ("Wind", Float 0.03);
        ("Hydropower", Float 0.02) ]) ].

Definition get_emission_factors : dict (dict number) := EMISSION_FACTORS.

Definition calculate_emissions (quantity factor : number) : result number :=
  mul quantity factor.

(** [sum(calculate_emissions(quantity, factors[category].get(item, 0))
         for item, quantity in items.items())]: each term is computed, then
    added to the sum so far, which starts as the [int] [0].  CPython adds
    the terms from left to right up to version 3.11; later versions
    compensate the rounding of a sum of several [float]s, which changes
    nothing for a sum of at most one term. *)
Fixpoint sum_emissions (factors : dict (dict number)) (category : string)
    (items : dict number) (acc : number) : result number :=
  match items with
  | [] => Ok acc
  | (item, quantity) :: rest =>
      table <- getitem factors category ;;
      term <- calculate_emissions quantity (get table item (Int 0)) ;;
      acc' <- add acc term ;;
      sum_emissions factors category rest acc'
  end.

Fixpoint total_emissions_of (factors : dict (dict number))
    (data : dict (dict number)) : result (dict number) :=
  match data with
  | [] => Ok []
  | (category, items) :: rest =>
      total <- sum_emissions factors category items (Int 0) ;;
      emissions <- total_emissions_of factors rest ;;
      Ok ((category, total) :: emissions)
  end.

Definition calculate_total_emissions (data : dict (dict number))
    : result (dict number) :=
  let factors := get_emission_factors in
  total_emissions_of factors data.

(** ** The worked example *)

Definition wheat_urea_input : dict (dict number) :=
  [ ("livestock", []); ("crops", [("Wheat", Int 10)]);
    ("fertilizer", [("Urea", Int 5)]); ("fuel", []); ("electricity", []) ].

(** The statement that the totals of [data] are [expected]: the call
    returns a dictionary equal to it. *)
Definition totals_are (data : dict (dict number)) (expected : dict number)
    : Prop :=
  exists emissions,
    calculate_total_emissions data = Ok emissions /\
    dict_equals emissions expected = true.

(** The quantity input of the worked example with [float] quantities. *)
Definition wheat_urea_floats : dict (dict number) :=
  [ ("livestock", []); ("crops", [("Wheat", Float 10.0)]);
    ("fertilizer", [("Urea", Float 5.0)]); ("fuel", []);
    ("electricity", []) ].

(** The [float] written as a decimal with few digits: numerator and
    denominator are exact, and their quotient is rounded once. *)
Definition decimal (q : Q) : number :=
  Float (PrimFloat.div
           (SF2Prim (binary_normalize prec emax (Qnum q) 0 false))
           (SF2Prim (binary_normalize prec emax (Zpos (Qden q)) 0 false))).

(** ** Rounding and range *)

(** An [int] beyond the range of [float] cannot be multiplied by a factor
    of the table, and an infinite quantity of an item the table does not
    have gives a NaN. *)
Example calculate_emissions_range :
  calculate_emissions (Int (10 ^ 400)) (Float 99.0) = Raise OverflowError /\
  calculate_emissions (Int (10 ^ 400)) (Int 0) = Ok (Int 0) /\
  calculate_emissions (Float infinity) (Int 0) = Ok (Float nan) /\
  calculate_total_emissions [("crops", [("Wheat", Int (10 ^ 400))])]
    = Raise OverflowError.
Proof. repeat split; reflexivity. Qed.

(** An [int] and a [float] are compared by value. *)
Example equals_by_value :
  equals (Int 3) (Float 3.0) = true /\
  equals (Int (2 ^ 53 + 1)) (Float 9007199254740992.0) = false /\
  equals (Float nan) (Float nan) = false /\
  equals (Float 0.0) (Float (-0.0)) = true.
Proof. repeat split; reflexivity. Qed.

(** The statement holds where no product is rounded away from the decimal
    result: a hundred hectares of wheat and a hundred kilograms of urea
    total 69 and 187. *)
Example hundredfold_totals :
  totals_are
    [ ("livestock", []); ("crops", [("Wheat", Int 100)]);
      ("fertilizer", [("Urea", Int 100)]); ("fuel", []);
      ("electricity", []) ]
    [ ("crops", Float 69.0); ("fertilizer", Float 187.0);
      ("livestock", Int 0); ("fuel", Int 0); ("electricity", Int 0) ].
Proof. eexists. split; reflexivity. Qed.

(** C8, as stated, fails: on Wheat: 10 and Urea: 5 the dictionary of
    totals is not equal to
    [{crops: 6.9, fertilizer: 9.35, livestock: 0, fuel: 0, electricity: 0}]. *)
Lemma wheat_urea_totals_not_exact :
  ~ totals_are wheat_urea_input
      [ ("crops", Float 6.9); ("fertilizer", Float 9.35);
        ("livestock", Int 0); ("fuel", Int 0); ("electricity", Int 0) ].
Proof.
  intros (emissions & Hrun & Heq).
  vm_compute in Hrun. injection Hrun as <-.
  vm_compute in Heq. discriminate.
Qed.

(** C8, amended: Wheat has factor 0.69 and Urea 1.87, as [float]s; Wheat:
    10 and Urea: 5 with the other categories empty give the [int] 0 for
    livestock, fuel and electricity, and for crops and fertilizer the
    rounded products 6.8999999999999995 and 9.350000000000001, whether the
    quantities are [int]s or [float]s.  The first is the [float] just
    below 6.9 and the second the one just above 9.35; as exact values,
    crops is less than 6.9 by less than 1e-15 and fertilizer more than
    9.35 by less than 2e-15. *)
Theorem wheat_urea_totals :
  dict_find (get EMISSION_FACTORS "crops" []) "Wheat" = Some (Float 0.69) /\
  dict_find (get EMISSION_FACTORS "fertilizer" []) "Urea"
    = Some (Float 1.87) /\
  calculate_total_emissions wheat_urea_input
    = Ok [ ("livestock", Int 0); ("crops", Float 6.8999999999999995);
           ("fertilizer", Float 9.350000000000001); ("fuel", Int 0);
           ("electricity", Int 0) ] /\
  calculate_total_emissions wheat_urea_floats
    = calculate_total_emissions wheat_urea_input /\
  next_up 6.8999999999999995 = 6.9%float /\
  next_down 9.350000000000001 = 9.35%float /\
  exists crops fertilizer : Q,
    exact (Float 6.8999999999999995) = Some crops /\
    exact (Float 9.350000000000001) = Some fertilizer /\
    crops < 6.9 /\ 6.9 - crops < 1e-15 /\
    9.35 < fertilizer /\ fertilizer - 9.35 < 2e-15.
Proof.
  do 6 (split; [reflexivity|]).
  do 2 eexists. do 2 (split; [reflexivity|]).
  repeat split; vm_compute; reflexivity.
Qed.

End Binary64.

(** Each factor of the binary64 table is the decimal of the rational
    table, rounded once. *)
Lemma EMISSION_FACTORS_rounded :
  map (fun ct : string * dict Q =>
         (fst ct,
          map (fun iq : string * Q => (fst iq, Binary64.decimal (snd iq)))
            (snd ct)))
    EMISSION_FACTORS
  = Binary64.EMISSION_FACTORS.
Proof. reflexivity. Qed.
